(** * Collection-rank synchronisation: a shallow embedding of the two
    [action] handlers and the properties of the rank-writing loop.

    The repository contains two copies of the routine:
    - the session-authenticated handler ([Module Session]), which obtains an
      [admin] handle from [authenticate.admin] and, after the per-product
      loop, stamps the collection with a [rendered_at] metafield;
    - the prototype handler ([Module Prototype]), which reads the shop and
      the access token from the process environment and talks to the shop
      through [fetch].

    Both are [async] functions that talk to an external commerce platform.
    They are embedded in a state-and-exception monad over an abstract world
    [W]: the platform is a step function on [W], every GraphQL call that is
    issued is appended to a trace together with its outcome, and every
    [console] call is appended to a console log.  JavaScript [throw] is the
    [Thrown] completion, [try]/[catch] is [try_catch]. *)

From stdpp Require Import base strings list gmap pretty.

Set Default Proof Using "Type".

(** ** Values exchanged with the platform *)

(** A thrown JavaScript value, as far as the handlers look at it:
    [error.status] and [error.message] (either may be undefined). *)
Record JsError := {
  err_status : option nat;
  err_message : option string;
}.

Inductive completion (A : Type) :=
  | Normal (a : A)
  | Thrown (e : JsError).
Arguments Normal {A} a.
Arguments Thrown {A} e.

Definition is_thrown {A} (c : completion A) : bool :=
  match c with Thrown _ => true | Normal _ => false end.

(** [node { id title }] *)
Record Product := {
  p_id : string;
  p_title : string;
}.

(** [collection(id: $id) { id handle sortOrder products { edges { node } } }];
    the [edges.map((e) => e.node)] step is folded into [c_products]. *)
Record Collection := {
  c_id : string;
  c_handle : string;
  c_sortOrder : string;
  c_products : list Product;
}.

Record Metafield := {
  mf_namespace : string;
  mf_key : string;
  mf_type : string;
  mf_value : string;
}.

Record UserError := {
  ue_field : list string;
  ue_message : string;
}.

(** The three GraphQL documents the handlers send, with their variables.
    [GetCollection id first sortKey] is the query
    [collection(id: $id) { ... products(first: 100, sortKey: MANUAL) ... }]. *)
Inductive Request :=
  | GetCollection (id : string) (first : nat) (sortKey : string)
  | ProductUpdate (id : string) (metafields : list Metafield)
  | CollectionUpdate (id : string) (metafields : list Metafield).

(** The [data] member of a parsed response body. *)
Inductive Data :=
  | D_collection (collection : option Collection)
  | D_productUpdate (userErrors : list UserError)
  | D_collectionUpdate (userErrors : list UserError).

(** A parsed response body; [body_data] is absent when the platform answers
    with a top-level [errors] member only. *)
Record Body := {
  body_data : option Data;
}.

(** [data?.collection] *)
Definition data_collection (d : option Data) : option Collection :=
  match d with
  | Some (D_collection c) => c
  | _ => None
  end.

(** [data?.data?.productUpdate?.userErrors] *)
Definition productUpdate_userErrors (b : Body) : list UserError :=
  match body_data b with
  | Some (D_productUpdate ues) => ues
  | _ => []
  end.

Global Instance JsError_eq_dec : EqDecision JsError.
Proof. solve_decision. Defined.
Global Instance Product_eq_dec : EqDecision Product.
Proof. solve_decision. Defined.
Global Instance Metafield_eq_dec : EqDecision Metafield.
Proof. solve_decision. Defined.
Global Instance Request_eq_dec : EqDecision Request.
Proof. solve_decision. Defined.

(** ** The handler's inputs and outputs *)

Record FormData := {
  collectionId : string;
  collectionHandle : string;
}.

(** The inbound request: its URL and what [request.formData()] completes
    with.  The UI form always submits both fields, so they are strings. *)
Record HttpRequest := {
  url : string;
  formData : completion FormData;
}.

(** One entry of [results.errors]. *)
Record Diagnostic := {
  productId : string;
  title : string;
  error : option string;
}.

(** [results = { success, failed, errors }] *)
Record Results := {
  success : nat;
  failed : nat;
  errors : list Diagnostic;
}.

Inductive ResponseBody :=
  | ErrorBody (error : string)
  | SuccessBody (success : bool) (results : Results) (message : string).

(** [json(body, { status })]; the status defaults to 200. *)
Record Response := {
  status : nat;
  body : ResponseBody;
}.

Definition json (b : ResponseBody) (st : option nat) : Response :=
  {| status := default 200 st; body := b |}.

(** ** Trace, console and the monad *)

Record Call := {
  call_req : Request;
  call_out : completion Body;
}.

Inductive Level := LLog | LWarn | LError.

Inductive ConsoleArg :=
  | AStr (s : string)
  | AErr (e : JsError)
  | AUserErrors (ues : list UserError)
  | AJson (b : Body).

Record State (W : Type) := {
  world : W;
  calls : list Call;
  console : list (Level * list ConsoleArg);
}.
Arguments world {W} _.
Arguments calls {W} _.
Arguments console {W} _.

Definition M (W A : Type) : Type := State W → completion A * State W.

Definition ret {W A} (a : A) : M W A := λ s, (Normal a, s).

Definition bind {W A B} (m : M W A) (k : A → M W B) : M W B :=
  λ s, match m s with
       | (Normal a, s') => k a s'
       | (Thrown e, s') => (Thrown e, s')
       end.

Definition try_catch {W A} (m : M W A) (handler : JsError → M W A) : M W A :=
  λ s, match m s with
       | (Normal a, s') => (Normal a, s')
       | (Thrown e, s') => handler e s'
       end.

Definition await {W A} (c : completion A) : M W A := λ s, (c, s).

Declare Scope js_scope.
Delimit Scope js_scope with js.
Notation "x <- m ;; k" := (bind m (λ x, k))
  (at level 20, m at level 99, k at level 200, only parsing) : js_scope.
Notation "m ;; k" := (bind m (λ _, k))
  (at level 100, k at level 200, only parsing, right associativity) : js_scope.
Local Open Scope js_scope.

Definition console_put {W} (lv : Level) (args : list ConsoleArg) : M W unit :=
  λ s, (Normal (),
        {| world := world s; calls := calls s;
           console := console s ++ [(lv, args)] |}).

(** One round trip to the platform: send [rq], parse the answer.  A failure
    of the transport and a failure of [response.json()] both surface as
    [Thrown]; either way the request has been issued and is traced. *)
Definition round_trip {W} (step : Request → W → completion Body * W)
    (rq : Request) : M W Body :=
  λ s, let '(out, w') := step rq (world s) in
       (out, {| world := w';
                calls := calls s ++ [{| call_req := rq; call_out := out |}];
                console := console s |}).

(** ** The rank loop, shared by both handlers *)

Definition results0 : Results := {| success := 0; failed := 0; errors := [] |}.

Definition success_incr (r : Results) : Results :=
  {| success := S (success r); failed := failed r; errors := errors r |}.

Definition failed_push (r : Results) (product : Product) (e : JsError) : Results :=
  {| success := success r;
     failed := S (failed r);
     errors := errors r ++ [{| productId := p_id product;
                               title := p_title product;
                               error := err_message e |}] |}.

(** The metafield both [setProductMetafield] helpers build. *)
Definition rank_metafield (key : string) (value : nat) : Metafield :=
  {| mf_namespace := "custom"; mf_key := key;
     mf_type := "number_integer"; mf_value := pretty value |}.

(** The request that sets [<handle>_rank] of [product] for loop index [i]. *)
Definition rank_request (handle : string) (i : nat) (product : Product) : Request :=
  ProductUpdate (p_id product) [rank_metafield (handle +:+ "_rank") (i + 1)].

Section rank_loop.
Context {W : Type}.
(** [setProductMetafield({ ..., productId, key, value })] of the handler. *)
Variable setProductMetafield : string → string → nat → M W Body.
Variable collectionHandle : string.

(** [for (let i = 0; i < products.length; i++) { ... }], from index [i]
    over the products that remain. *)
Fixpoint rank_loop (products : list Product) (i : nat) (results : Results)
    : M W Results :=
  match products with
  | [] => ret results
  | product :: rest =>
      results' <-
        try_catch
          (console_put LLog
             [AStr ("Updating product " +:+ p_id product +:+ " (" +:+
                    p_title product +:+ ") with key " +:+ collectionHandle
                    +:+ "_rank = " +:+ pretty (i + 1))] ;;
           setProductMetafield (p_id product)
             (collectionHandle +:+ "_rank") (i + 1) ;;
           ret (success_incr results))
          (λ error,
             console_put LError
               [AStr ("Failed to update product " +:+ p_id product +:+ ":");
                AErr error] ;;
             ret (failed_push results product error)) ;;
      rank_loop rest (S i) results'
  end.
End rank_loop.

(** The summary line of the success response. *)
Definition summary (results : Results) : string :=
  "Successfully updated " +:+ pretty (success results) +:+ " products" +:+
  (if bool_decide (0 < failed results)
   then ", " +:+ pretty (failed results) +:+ " failed" else "").

(** [error.message || "An unexpected error occurred"] *)
Definition message_or_default (e : JsError) : string :=
  match err_message e with
  | Some m => if bool_decide (m = "") then "An unexpected error occurred" else m
  | None => "An unexpected error occurred"
  end.

(** ** The session-authenticated handler *)

Record Admin (W : Type) := {
  admin_graphql : Request → W → completion Body * W;
}.
Arguments admin_graphql {W} _ _ _.

Record Env (W : Type) := {
  (** [authenticate.admin(request)]: throws, or yields [{ admin }]. *)
  authenticate_admin : HttpRequest → W → completion (option (Admin W)) * W;
  (** [new Date().toISOString()] *)
  date_now : W → string;
}.
Arguments authenticate_admin {W} _ _ _.
Arguments date_now {W} _ _.

Module Session.
Section handler.
Context {W : Type} (env : Env W).

(** [await admin.graphql(doc, { variables })] then [await response.json()] *)
Definition graphql (admin : Admin W) (rq : Request) : M W Body :=
  round_trip (admin_graphql admin) rq.

Definition setProductMetafield (admin : Admin W)
    (productId key : string) (value : nat) : M W Body :=
  data <- graphql admin (ProductUpdate productId [rank_metafield key value]) ;;
  (match productUpdate_userErrors data with
   | [] => ret ()
   | ues => console_put LError
              [AStr "Product metafield update userErrors:"; AUserErrors ues]
   end) ;;
  ret data.

Definition rendered_at (now : string) : Metafield :=
  {| mf_namespace := "custom"; mf_key := "rendered_at";
     mf_type := "single_line_text_field"; mf_value := now |}.

(** The response the outer [catch] block builds from what was thrown. *)
Definition error_response (error : JsError) : Response :=
  if bool_decide (err_status error = Some 401)
  then json (ErrorBody "Session expired. Please refresh the page.") (Some 401)
  else json (ErrorBody (message_or_default error)) (Some 500).

Definition on_error (error : JsError) : M W Response :=
  console_put LError [AStr "Action error:"; AErr error] ;;
  ret (error_response error).

Definition action (request : HttpRequest) : M W Response :=
  console_put LLog [AStr "[action] called with"; AStr (url request)] ;;
  try_catch
    (auth <- (λ s, let '(out, w') := authenticate_admin env request (world s) in
                   (out, {| world := w'; calls := calls s; console := console s |})) ;;
     form <- await (formData request) ;;
     let collectionId := collectionId form in
     let collectionHandle := collectionHandle form in
     match auth with
     | None => ret (json (ErrorBody "Authentication required") (Some 401))
     | Some admin =>
         console_put LLog [AStr "Received action for collection:";
                           AStr collectionId; AStr collectionHandle] ;;
         data <- graphql admin (GetCollection collectionId 100 "MANUAL") ;;
         console_put LLog [AStr "[action] collection data:"; AJson data] ;;
         match data_collection (body_data data) with
         | None =>
             console_put LError [AStr "Collection not found:"; AStr collectionId] ;;
             ret (json (ErrorBody "Collection not found") (Some 404))
         | Some collection =>
             if bool_decide (c_sortOrder collection ≠ "MANUAL")
             then
               console_put LWarn [AStr "Collection is not manual sort:";
                                  AStr (c_sortOrder collection)] ;;
               ret (json (ErrorBody "Collection is not manual sort") (Some 400))
             else
               let products := c_products collection in
               results <- rank_loop (setProductMetafield admin) collectionHandle
                            products 0 results0 ;;
               console_put LLog
                 [AStr ("Updated " +:+ pretty (success results) +:+
                        " products, failed: " +:+ pretty (failed results) +:+
                        " for collection " +:+ collectionHandle)] ;;
               now <- (λ s, (Normal (date_now env (world s)), s)) ;;
               metafieldData <- graphql admin
                 (CollectionUpdate collectionId [rendered_at now]) ;;
               console_put LLog [AStr "[action] metafield update response:";
                                 AJson metafieldData] ;;
               ret (json (SuccessBody true results (summary results)) None)
         end
     end)
    on_error.
End handler.
End Session.

(** ** The prototype handler *)

Record ProcEnv (W : Type) := {
  SHOPIFY_SHOP : option string;
  SHOPIFY_ACCESS_TOKEN : option string;
  (** [fetch("https://<shop>/admin/api/2023-10/graphql.json", ...)] with the
      access token header, then [res.json()]. *)
  fetch : string → string → Request → W → completion Body * W;
}.
Arguments SHOPIFY_SHOP {W} _.
Arguments SHOPIFY_ACCESS_TOKEN {W} _.
Arguments fetch {W} _ _ _ _ _.

(** Truthiness of an environment variable: defined and not empty. *)
Definition truthy (v : option string) : option string :=
  match v with
  | Some s => if bool_decide (s = "") then None else Some s
  | None => None
  end.

Module Prototype.
Section handler.
Context {W : Type} (env : ProcEnv W).

(** Returns [jsonRes.data]. *)
Definition shopifyGraphQL (shop accessToken : string) (rq : Request)
    : M W (option Data) :=
  jsonRes <- round_trip (fetch env shop accessToken) rq ;;
  ret (body_data jsonRes).

(** Returns what [shopifyGraphQL] returns, the [data] member; it is wrapped
    in a [Body] again so that both handlers share [rank_loop], which ignores
    the value. *)
Definition setProductMetafield (shop accessToken : string)
    (productId key : string) (value : nat) : M W Body :=
  data <- shopifyGraphQL shop accessToken
            (ProductUpdate productId [rank_metafield key value]) ;;
  ret {| body_data := data |}.

(** The response the [catch] block builds from what was thrown. *)
Definition error_response (error : JsError) : Response :=
  json (ErrorBody (message_or_default error)) (Some 500).

Definition action (request : HttpRequest) : M W Response :=
  form <- await (formData request) ;;
  let collectionId := collectionId form in
  let collectionHandle := collectionHandle form in
  match truthy (SHOPIFY_SHOP env), truthy (SHOPIFY_ACCESS_TOKEN env) with
  | Some shop, Some accessToken =>
      try_catch
        (console_put LLog [AStr "Received action for collection:";
                           AStr collectionId; AStr collectionHandle] ;;
         data <- shopifyGraphQL shop accessToken
                   (GetCollection collectionId 100 "MANUAL") ;;
         match data_collection data with
         | None =>
             console_put LError [AStr "Collection not found:"; AStr collectionId] ;;
             ret (json (ErrorBody "Collection not found") (Some 404))
         | Some collection =>
             if bool_decide (c_sortOrder collection ≠ "MANUAL")
             then
               console_put LWarn [AStr "Collection is not manual sort:";
                                  AStr (c_sortOrder collection)] ;;
               ret (json (ErrorBody "Collection is not manual sort") (Some 400))
             else
               let products := c_products collection in
               results <- rank_loop (setProductMetafield shop accessToken)
                            collectionHandle products 0 results0 ;;
               console_put LLog
                 [AStr ("Updated " +:+ pretty (success results) +:+
                        " products, failed: " +:+ pretty (failed results) +:+
                        " for collection " +:+ collectionHandle)] ;;
               ret (json (SuccessBody true results (summary results)) None)
         end)
        (λ error,
           console_put LError [AStr "Error processing collection:"; AErr error] ;;
           ret (error_response error))
  | _, _ => ret (json (ErrorBody "Missing shop or access token") (Some 401))
  end.
End handler.
End Prototype.

(** ** Observations on a run *)

(** A fresh run in world [w]: nothing issued, nothing logged yet. *)
Definition init {W} (w : W) : State W :=
  {| world := w; calls := []; console := [] |}.

Definition is_ProductUpdate (rq : Request) : bool :=
  match rq with ProductUpdate _ _ => true | _ => false end.

Definition is_mutation (rq : Request) : bool :=
  match rq with GetCollection _ _ _ => false | _ => true end.

(** The product mutations of a trace, in the order they were issued. *)
Definition product_writes (tr : list Call) : list Call :=
  filter (λ c, is_ProductUpdate (call_req c)) tr.

Definition write_requests (tr : list Call) : list Request :=
  call_req <$> product_writes tr.

Definition write_outcomes (tr : list Call) : list (completion Body) :=
  call_out <$> product_writes tr.

Definition mutations (tr : list Call) : list Request :=
  filter (λ rq, is_mutation rq) (call_req <$> tr).

(** How the last call of a trace ended. *)
Definition last_outcome (tr : list Call) : option (completion Body) :=
  call_out <$> last tr.

Definition err_of {A} (c : completion A) : option JsError :=
  match c with Thrown e => Some e | Normal _ => None end.

(** The rank requests the loop sends for [products], first index [i]. *)
Definition rank_requests (handle : string) (i : nat) (products : list Product)
    : list Request :=
  imap (λ j, rank_request handle (i + j)) products.
Arguments rank_requests : simpl never.

(** What one loop iteration does to [results], given how the write ended. *)
Definition tally (r : Results) (po : Product * completion Body) : Results :=
  match err_of po.2 with
  | None => success_incr r
  | Some e => failed_push r po.1 e
  end.

Definition diagnostic (po : Product * completion Body) : option Diagnostic :=
  e ← err_of po.2;
  Some {| productId := p_id po.1; title := p_title po.1; error := err_message e |}.

(** A [setProductMetafield] sends exactly the one product mutation for its
    arguments and throws exactly when that round trip throws. *)
Definition issues_one_write {W} (setMF : string → string → nat → M W Body) : Prop :=
  ∀ productId key value s, ∃ out,
    calls (setMF productId key value s).2 =
      calls s ++ [{| call_req := ProductUpdate productId [rank_metafield key value];
                     call_out := out |}]
    ∧ err_of (setMF productId key value s).1 = err_of out.

(** ** Responses and guards *)

(** The success response for a given [results]. *)
Definition success_response (results : Results) : Response :=
  json (SuccessBody true results (summary results)) None.

Definition not_found : Response :=
  json (ErrorBody "Collection not found") (Some 404).

Definition invalid_state : Response :=
  json (ErrorBody "Collection is not manual sort") (Some 400).

(** In world [w] the session handler authenticates, reads the form and its
    collection query completes with [c] ([None]: the identifier does not
    resolve). *)
Definition session_fetches {W} (env : Env W) (request : HttpRequest)
    (form : FormData) (w : W) (c : option Collection) : Prop :=
  formData request = Normal form ∧
  ∃ admin w1 b w2,
    authenticate_admin env request w = (Normal (Some admin), w1)
    ∧ admin_graphql admin (GetCollection (collectionId form) 100 "MANUAL") w1
        = (Normal b, w2)
    ∧ data_collection (body_data b) = c.

(** The same for the prototype handler. *)
Definition prototype_fetches {W} (env : ProcEnv W) (request : HttpRequest)
    (form : FormData) (w : W) (c : option Collection) : Prop :=
  formData request = Normal form ∧
  ∃ shop accessToken b w1,
    truthy (SHOPIFY_SHOP env) = Some shop
    ∧ truthy (SHOPIFY_ACCESS_TOKEN env) = Some accessToken
    ∧ fetch env shop accessToken (GetCollection (collectionId form) 100 "MANUAL") w
        = (Normal b, w1)
    ∧ data_collection (body_data b) = c.

(** ** A reference platform *)

(** A small model of the commerce platform, used to run the handlers on
    concrete shops: collections by identifier (with their full manual
    order), the [custom] metafields by owner and key, the owners whose
    update fails in transport, the owners whose update is rejected with
    [userErrors], and the clock. *)
Record Shop := {
  shop_collections : gmap string Collection;
  shop_metafields : gmap (string * string) string;
  shop_unreachable : gset string;
  shop_invalid : gset string;
  shop_clock : string;
}.

(** [products(first: n, sortKey: MANUAL)]: the first [n] members. *)
Definition shop_page (first : nat) (c : Collection) : Collection :=
  {| c_id := c_id c; c_handle := c_handle c; c_sortOrder := c_sortOrder c;
     c_products := take first (c_products c) |}.

Definition shop_set (owner : string) (mfs : list Metafield)
    (m : gmap (string * string) string) : gmap (string * string) string :=
  foldl (λ m mf, <[(owner, mf_key mf) := mf_value mf]> m) m mfs.

Definition transport_error : JsError :=
  {| err_status := None; err_message := Some "fetch failed" |}.

Definition invalid_value : UserError :=
  {| ue_field := ["metafields"; "0"; "value"]; ue_message := "Value is invalid" |}.

Definition shop_update (owner : string) (mfs : list Metafield)
    (reply : list UserError → Data) (sh : Shop) : completion Body * Shop :=
  if decide (owner ∈ shop_unreachable sh) then (Thrown transport_error, sh)
  else if decide (owner ∈ shop_invalid sh)
  then (Normal {| body_data := Some (reply [invalid_value]) |}, sh)
  else (Normal {| body_data := Some (reply []) |},
        {| shop_collections := shop_collections sh;
           shop_metafields := shop_set owner mfs (shop_metafields sh);
           shop_unreachable := shop_unreachable sh;
           shop_invalid := shop_invalid sh;
           shop_clock := shop_clock sh |}).

Definition shop_step (rq : Request) (sh : Shop) : completion Body * Shop :=
  match rq with
  | GetCollection id first _ =>
      (Normal {| body_data :=
                   Some (D_collection (shop_page first <$> shop_collections sh !! id)) |},
       sh)
  | ProductUpdate id mfs => shop_update id mfs D_productUpdate sh
  | CollectionUpdate id mfs => shop_update id mfs D_collectionUpdate sh
  end.

Definition shop_admin : Admin Shop := {| admin_graphql := shop_step |}.

Definition shop_env : Env Shop :=
  {| authenticate_admin := λ _ sh, (Normal (Some shop_admin), sh);
     date_now := shop_clock |}.

Definition shop_proc_env : ProcEnv Shop :=
  {| SHOPIFY_SHOP := Some "demo.myshopify.com";
     SHOPIFY_ACCESS_TOKEN := Some "shpat_demo";
     fetch := λ _ _, shop_step |}.

(** The scenario of the specification: collection [best-sellers], manual
    sort, products A, B, C. *)
Definition pA : Product := {| p_id := "gid://shopify/Product/A"; p_title := "A" |}.
Definition pB : Product := {| p_id := "gid://shopify/Product/B"; p_title := "B" |}.
Definition pC : Product := {| p_id := "gid://shopify/Product/C"; p_title := "C" |}.

Definition best_sellers : Collection :=
  {| c_id := "gid://shopify/Collection/1"; c_handle := "best-sellers";
     c_sortOrder := "MANUAL"; c_products := [pA; pB; pC] |}.

Definition by_price : Collection :=
  {| c_id := "gid://shopify/Collection/2"; c_handle := "by-price";
     c_sortOrder := "PRICE_ASC"; c_products := [pB; pA] |}.

Definition demo_shop (unreachable invalid : gset string) : Shop :=
  {| shop_collections := {[ c_id best_sellers := best_sellers; c_id by_price := by_price ]};
     shop_metafields := ∅;
     shop_unreachable := unreachable;
     shop_invalid := invalid;
     shop_clock := "2024-05-01T10:00:00.000Z" |}.

Definition render (c : Collection) : HttpRequest :=
  {| url := "https://app.example/app";
     formData := Normal {| collectionId := c_id c; collectionHandle := c_handle c |} |}.

(** A manually sorted collection with 101 members. *)
Definition numbered (n : nat) : Product :=
  {| p_id := "gid://shopify/Product/" +:+ pretty n; p_title := "Product " +:+ pretty n |}.

Definition catalogue : Collection :=
  {| c_id := "gid://shopify/Collection/3"; c_handle := "catalogue";
     c_sortOrder := "MANUAL"; c_products := numbered <$> seq 0 101 |}.

Definition big_shop : Shop :=
  {| shop_collections := {[ c_id catalogue := catalogue ]};
     shop_metafields := ∅;
     shop_unreachable := ∅;
     shop_invalid := ∅;
     shop_clock := "2024-05-01T10:00:00.000Z" |}.





(** A session that has expired: [authenticate.admin] throws a response with
    status 401. *)
Definition expired_env : Env Shop :=
  {| authenticate_admin := λ _ sh,
       (Thrown {| err_status := Some 401; err_message := None |}, sh);
     date_now := shop_clock |}.

(** A session object without [admin]. *)
Definition anonymous_env : Env Shop :=
  {| authenticate_admin := λ _ sh, (Normal None, sh);
     date_now := shop_clock |}.

(** A process environment whose access token is empty. *)
Definition tokenless_proc_env : ProcEnv Shop :=
  {| SHOPIFY_SHOP := Some "demo.myshopify.com";
     SHOPIFY_ACCESS_TOKEN := Some "";
     fetch := λ _ _, shop_step |}.

(** A request whose body cannot be read as a form. *)
Definition unreadable : HttpRequest :=
  {| url := "https://app.example/app";
     formData := Thrown {| err_status := None;
                           err_message := Some "Could not parse content as FormData." |} |}.

(** A request for a collection the demo shop does not have. *)
Definition render_missing : HttpRequest :=
  {| url := "https://app.example/app";
     formData := Normal {| collectionId := "gid://shopify/Collection/404";
                           collectionHandle := "gone" |} |}.

(** ** The container entrypoint scripts

    [docker-entrypoint.js] and its variant that also writes [/app/.env] are
    top-level scripts: they prepare the database file, run the migrations and
    then hand over to the server command.  They are embedded in a monad of
    their own over an abstract operating system: every file-system call and
    every child process is appended to the event log with its answer, and an
    [await] on a child that never exits leaves the script [Pending]. *)

Module Entrypoint.

Inductive outcome (A : Type) :=
  | Done (a : A)
  | Raised (e : JsError)
  | Pending.
Arguments Done {A} a.
Arguments Raised {A} e.
Arguments Pending {A}.

(** How a child process ends: with an exit code ([None] is the [null] code
    of a child killed by a signal), or never. *)
Inductive Exit :=
  | Exited (code : option nat)
  | Running.

Inductive Event :=
  | EvExists (path : string) (answer : bool)
  | EvUnlink (path : string) (result : completion unit)
  | EvSymlink (target path : string) (result : completion unit)
  | EvWriteFile (path content : string) (result : completion unit)
  | EvSpawn (command : string) (env : gmap string string) (exit : Exit).

(** The operating system as the scripts use it: [fs.existsSync],
    [fs.unlinkSync], [fs.symlinkSync], [fs.writeFileSync], and
    [spawn(command, { shell: true, stdio: 'inherit', env })] followed until
    the child's [exit] event. *)
Record OS (V : Type) := {
  existsSync : string → V → bool * V;
  unlinkSync : string → V → completion unit * V;
  symlinkSync : string → string → V → completion unit * V;
  writeFileSync : string → string → V → completion unit * V;
  spawn : string → gmap string string → V → Exit * V;
}.
Arguments existsSync {V} _ _ _.
Arguments unlinkSync {V} _ _ _.
Arguments symlinkSync {V} _ _ _ _.
Arguments writeFileSync {V} _ _ _ _.
Arguments spawn {V} _ _ _ _.

Record Proc (V : Type) := {
  os_state : V;
  events : list Event;
  output : list (Level * list ConsoleArg);
}.
Arguments os_state {V} _.
Arguments events {V} _.
Arguments output {V} _.

Definition Script (V A : Type) : Type := Proc V → outcome A * Proc V.

Definition sret {V A} (a : A) : Script V A := λ s, (Done a, s).

Definition sbind {V A B} (m : Script V A) (k : A → Script V B) : Script V B :=
  λ s, match m s with
       | (Done a, s') => k a s'
       | (Raised e, s') => (Raised e, s')
       | (Pending, s') => (Pending, s')
       end.

Definition sthrow {V A} (e : JsError) : Script V A := λ s, (Raised e, s).

Definition stry {V A} (m : Script V A) (handler : JsError → Script V A) : Script V A :=
  λ s, match m s with
       | (Raised e, s') => handler e s'
       | r => r
       end.

Declare Scope script_scope.
Notation "x <- m ;; k" := (sbind m (λ x, k))
  (at level 20, m at level 99, k at level 200, only parsing) : script_scope.
Notation "m ;; k" := (sbind m (λ _, k))
  (at level 100, k at level 200, only parsing, right associativity) : script_scope.
Local Open Scope script_scope.

Definition say {V} (lv : Level) (args : list ConsoleArg) : Script V unit :=
  λ s, (Done (), {| os_state := os_state s; events := events s;
                    output := output s ++ [(lv, args)] |}).

(** One call into the operating system, logged with its answer. *)
Definition sys {V A} (call : V → A * V) (ev : A → Event) : Script V A :=
  λ s, let '(a, v') := call (os_state s) in
       (Done a, {| os_state := v'; events := events s ++ [ev a];
                   output := output s |}).

(** A file-system call that may throw. *)
Definition sys_try {V} (call : V → completion unit * V)
    (ev : completion unit → Event) : Script V unit :=
  r <- sys call ev ;;
  match r with
  | Normal _ => sret ()
  | Thrown e => sthrow e
  end.

(** [new Error(message)] *)
Definition Error (message : string) : JsError :=
  {| err_status := None; err_message := Some message |}.

(** The text of an exit code inside a template string. *)
Definition show_code (code : option nat) : string :=
  match code with
  | Some n => pretty n
  | None => "null"
  end.

(** The text of an environment variable inside a template string. *)
Definition show_var (v : option string) : string := default "undefined" v.

(** [v || fallback] for an environment variable. *)
Definition or_default (v : option string) (fallback : string) : string :=
  default fallback (truthy v).

(** [array.join(' ')] *)
Fixpoint join_space (l : list string) : string :=
  match l with
  | [] => ""
  | [x] => x
  | x :: rest => x +:+ " " +:+ join_space rest
  end.

(** [array.slice(-3)] *)
Definition slice_last3 (l : list string) : list string :=
  drop (length l - 3) l.

Definition quote : string := String (Ascii.ascii_of_nat 34) "".
Definition newline : string := String (Ascii.ascii_of_nat 10) "".

Definition target : string := "/data/dev.sqlite".
(** [path.resolve('/app/prisma/dev.sqlite')]: the path is absolute already. *)
Definition source : string := "/app/prisma/dev.sqlite".

Definition restore_command : string :=
  "litestream restore -config litestream.yml -if-replica-exists " +:+ target.
Definition migrate_command : string := "npx prisma migrate deploy".

Section scripts.
Context {V : Type} (os : OS V).
(** The built-ins [JSON.stringify] (on a string) and [String.prototype.trim]. *)
Variable stringify : string → string.
Variable trim : string → string.

(** [function exec(command)], called while the script's [env] object holds
    [env]. *)
Definition exec (env : gmap string string) (command : string) : Script V unit :=
  say LLog [AStr "Executing command:"; AStr command] ;;
  exit <- sys (spawn os command env) (EvSpawn command env) ;;
  match exit with
  | Running => λ s, (Pending, s)
  | Exited code =>
      say LLog [AStr ("Command " +:+ quote +:+ command +:+ quote +:+
                      " exited with code " +:+ show_code code)] ;;
      if bool_decide (code = Some 0) then sret ()
      else sthrow (Error (command +:+ " failed rc=" +:+ show_code code))
  end.

(** The block guarded by
    [process.argv.slice(-3).join(' ') === 'npm run start'], the same text in
    both scripts. *)
Definition start_block (env penv : gmap string string) : Script V unit :=
  data <- sys (existsSync os "/data") (EvExists "/data") ;;
  if negb data then
    say LError [AStr "Volume /data does not exist"] ;;
    sthrow (Error "/data volume missing")
  else
    stry
      (there <- sys (existsSync os source) (EvExists source) ;;
       (if there then
          sys_try (unlinkSync os source) (EvUnlink source) ;;
          say LLog [AStr "Removed existing file or symlink at"; AStr source]
        else sret ()) ;;
       sys_try (symlinkSync os target source) (EvSymlink target source) ;;
       say LLog [AStr "Symlink created:"; AStr source; AStr "->"; AStr target])
      (λ err,
         say LError [AStr "Failed to create symlink:"; AErr err] ;;
         sthrow err) ;;
    db <- sys (existsSync os target) (EvExists target) ;;
    let newDb := negb db in
    (if newDb && bool_decide (is_Some (truthy (penv !! "BUCKET_NAME"))) then
       stry
         (say LLog [AStr "Running litestream restore"] ;;
          exec env restore_command ;;
          say LLog [AStr "Litestream restore completed"])
         (λ err,
            say LWarn [AStr "Litestream restore failed, creating empty database:";
                       AStr (show_var (err_message err))])
     else sret ()) ;;
    db' <- sys (existsSync os target) (EvExists target) ;;
    (if negb db' then
       say LLog [AStr "Creating empty database at"; AStr target] ;;
       sys_try (writeFileSync os target "") (EvWriteFile target "")
     else sret ()) ;;
    say LLog [AStr "Running prisma migrate deploy"] ;;
    exec env migrate_command ;;
    say LLog [AStr "Prisma migrate deploy completed"].

(** [process.argv.slice(2).join(' ')] *)
Definition server_command (argv : list string) : string :=
  join_space (drop 2 argv).

(** The command of the last [exec]: the server command itself, or litestream
    wrapping it. *)
Definition final_command (argv : list string) (penv : gmap string string) : string :=
  match truthy (penv !! "BUCKET_NAME") with
  | Some _ => "litestream replicate -config litestream.yml -exec "
              +:+ stringify (server_command argv)
  | None => server_command argv
  end.

Definition launch (env : gmap string string) (argv : list string)
    (penv : gmap string string) : Script V unit :=
  match truthy (penv !! "BUCKET_NAME") with
  | Some _ =>
      say LLog [AStr "Running litestream replicate"] ;;
      exec env ("litestream replicate -config litestream.yml -exec "
                +:+ stringify (server_command argv))
  | None =>
      say LLog [AStr "Running command without litestream"] ;;
      exec env (server_command argv)
  end.

(** [docker-entrypoint.js]: [env] is a copy of [process.env]. *)
Definition main (argv : list string) (penv : gmap string string) : Script V unit :=
  let env := penv in
  (if bool_decide (join_space (slice_last3 argv) = "npm run start")
   then start_block env penv else sret ()) ;;
  launch env argv penv.

(** The [env] object of the variant that writes [/app/.env]. *)
Definition child_env (penv : gmap string string) : gmap string string :=
  <["SHOPIFY_API_VERSION" := or_default (penv !! "SHOPIFY_API_VERSION") "2023-10"]>
  (<["SHOPIFY_API_URL" := or_default (penv !! "SHOPIFY_API_URL") "https://shopify.com"]>
  (<["PORT" := or_default (penv !! "PORT") "3000"]>
  (<["HOST" := "0.0.0.0"]> penv))).

Definition envContent (penv : gmap string string) : string :=
  newline +:+
  "HOST=" +:+ or_default (penv !! "HOST") "0.0.0.0" +:+ newline +:+
  "PORT=" +:+ or_default (penv !! "PORT") "3000" +:+ newline +:+
  "SHOPIFY_API_URL=" +:+ or_default (penv !! "SHOPIFY_API_URL") "https://shopify.com"
    +:+ newline +:+
  "SHOPIFY_API_VERSION=" +:+ or_default (penv !! "SHOPIFY_API_VERSION") "2024-01"
    +:+ newline +:+
  "SHOPIFY_API_KEY=" +:+ show_var (penv !! "SHOPIFY_API_KEY") +:+ newline +:+
  "SHOPIFY_API_SECRET=" +:+ show_var (penv !! "SHOPIFY_API_SECRET") +:+ newline +:+
  "SHOPIFY_APP_URL=" +:+ show_var (penv !! "SHOPIFY_APP_URL") +:+ newline +:+
  "DATABASE_URL=" +:+ or_default (penv !! "DATABASE_URL") "file:./prisma/dev.db"
    +:+ newline +:+
  "NODE_ENV=" +:+ or_default (penv !! "NODE_ENV") "production" +:+ newline +:+
  "SCOPES=" +:+ or_default (penv !! "SCOPES")
                  "write_products,read_products,write_script_tags,read_script_tags"
    +:+ newline.

(** [if (!env.DATABASE_URL) env.DATABASE_URL = 'file:/data/dev.sqlite'] *)
Definition with_database_url (env : gmap string string) : gmap string string :=
  match truthy (env !! "DATABASE_URL") with
  | Some _ => env
  | None => <["DATABASE_URL" := "file:/data/dev.sqlite"]> env
  end.

(** The variant that writes [/app/.env] first and passes an adjusted
    environment to its children. *)
Definition main_dotenv (argv : list string) (penv : gmap string string)
    : Script V unit :=
  let env := child_env penv in
  sys_try (writeFileSync os "/app/.env" (trim (envContent penv)))
    (EvWriteFile "/app/.env" (trim (envContent penv))) ;;
  say LLog [AStr "Created .env file with environment variables"] ;;
  (if bool_decide (join_space (slice_last3 argv) = "npm run start")
   then start_block env penv else sret ()) ;;
  launch (with_database_url env) argv penv.
End scripts.

(** A fresh process in operating-system state [v]. *)
Definition boot {V} (v : V) : Proc V :=
  {| os_state := v; events := []; output := [] |}.

(** The commands spawned, in order. *)
Definition spawned (evs : list Event) : list string :=
  omap (λ ev, match ev with EvSpawn command _ _ => Some command | _ => None end) evs.

(** The error of a file-system change that threw. *)
Definition fs_error (ev : Event) : option JsError :=
  match ev with
  | EvUnlink _ (Thrown e) | EvSymlink _ _ (Thrown e) | EvWriteFile _ _ (Thrown e) => Some e
  | _ => None
  end.

End Entrypoint.

(** ** The loader of the session-authenticated page

    The loader fetches one page of manually sorted collections and shapes
    them for the table.  Unlike the action it has no [try]: what
    [authenticate.admin] or the query throw reaches the framework.  The
    request URL is taken as parsed: [params] are its search parameters in
    order. *)

Module Loader.

Record PageInfo := {
  hasNextPage : bool;
  hasPreviousPage : bool;
  endCursor : option string;
  startCursor : option string;
}.

(** [node { id title handle sortOrder productsCount { count } metafield { value } }];
    [n_count] is [None] when [productsCount] is null, [n_rendered_at] is
    [None] when the metafield is null. *)
Record Node := {
  n_id : string;
  n_title : string;
  n_handle : string;
  n_sortOrder : string;
  n_count : option nat;
  n_rendered_at : option string;
}.

Record Edge := {
  e_cursor : string;
  e_node : Node;
}.

(** [data.data.collections] *)
Record Connection := {
  c_pageInfo : option PageInfo;
  c_edges : option (list Edge);
}.

(** The variables of [query getCollections($first: Int!, $after: String)];
    the search filter ["sortOrder:MANUAL"] is part of the document. *)
Record Query := {
  q_first : nat;
  q_after : option string;
  q_filter : string;
}.

(** One row of the table. *)
Record Row := {
  r_id : string;
  r_title : string;
  r_handle : string;
  r_sortOrder : string;
  r_totalProducts : nat;
  r_renderedAt : option string;
  r_cursor : string;
}.

Section loader.
(** JavaScript numbers and [parseInt(_, 10)] are left to the caller. *)
Context {W Num : Type} (parseInt : string → Num).

(** What the loader returns through [json]. *)
Record Data := {
  d_collections : list Row;
  d_pageInfo : option PageInfo;
  d_currentPage : Num;
  d_perPage : nat;
  d_shop : option string;
  d_error : option string;
}.

(** [{ admin, session }] of [authenticate.admin]: [l_graphql] is
    [admin.graphql] followed by [response.json()] and yields
    [data?.data?.collections]; [l_shop] is [session?.shop]. *)
Record Auth := {
  l_graphql : Query → W → completion (option Connection) * W;
  l_shop : option string;
}.

Record LoaderEnv := {
  l_authenticate : W → completion Auth * W;
  l_SHOPIFY_SHOP : option string;
}.

(** [url.searchParams.get(name)] on the parameters of the request URL. *)
Fixpoint get (params : list (string * string)) (name : string) : option string :=
  match params with
  | [] => None
  | (k, v) :: rest => if bool_decide (k = name) then Some v else get rest name
  end.

Definition row (edge : Edge) : Row :=
  {| r_id := n_id (e_node edge);
     r_title := n_title (e_node edge);
     r_handle := n_handle (e_node edge);
     r_sortOrder := n_sortOrder (e_node edge);
     r_totalProducts := default 0 (n_count (e_node edge));
     r_renderedAt := truthy (n_rendered_at (e_node edge));
     r_cursor := e_cursor edge |}.

Definition lift {A} (step : W → completion A * W) : M W A :=
  λ s, let '(out, w') := step (world s) in
       (out, {| world := w'; calls := calls s; console := console s |}).

Definition loader (env : LoaderEnv) (url : string) (params : list (string * string))
    : M W Data :=
  console_put LLog [AStr "[loader] called with"; AStr url] ;;
  auth <- lift (l_authenticate env) ;;
  let shop := match truthy (l_shop auth) with
              | Some s => Some s
              | None => l_SHOPIFY_SHOP env
              end in
  let page := parseInt (default "1" (truthy (get params "page"))) in
  let after := truthy (get params "after") in
  let perPage := 30 in
  data <- lift (l_graphql auth {| q_first := perPage; q_after := after;
                                  q_filter := "sortOrder:MANUAL" |}) ;;
  match data ≫= c_edges with
  | None =>
      ret {| d_collections := [];
             d_pageInfo := Some {| hasNextPage := false; hasPreviousPage := false;
                                   endCursor := None; startCursor := None |};
             d_currentPage := page; d_perPage := perPage; d_shop := shop;
             d_error := Some "Collections data is missing or malformed." |}
  | Some edges =>
      ret {| d_collections := row <$> edges;
             d_pageInfo := data ≫= c_pageInfo;
             d_currentPage := page; d_perPage := perPage; d_shop := shop;
             d_error := None |}
  end.
End loader.
End Loader.

(** ** The toast effect of the session-authenticated page

    The body of the [useEffect] that reacts to the action's response, as a
    function from the fetcher and the component state to the next component
    state. *)

Module Toasts.

Inductive FetcherState := idle | submitting | loading.

Record Toast := {
  content : string;
  tone : string;
}.

(** [toastMessage], [lastToastId] and the number of
    [window.location.reload()] calls. *)
Record Ui := {
  toastMessage : option Toast;
  lastToastId : option string;
  reloads : nat;
}.

Definition is_idle (st : FetcherState) : bool :=
  match st with idle => true | _ => false end.

Definition effect (data : option ResponseBody) (st : FetcherState) (ui : Ui) : Ui :=
  match data with
  | Some (SuccessBody true _ message) =>
      if is_idle st && bool_decide (lastToastId ui ≠ Some message) then
        {| toastMessage := Some {| content := message; tone := "success" |};
           lastToastId := Some message;
           reloads := reloads ui |}
      else ui
  | Some (ErrorBody error) =>
      if bool_decide (error ≠ "") && is_idle st
         && bool_decide (lastToastId ui ≠ Some error) then
        if bool_decide (error = "Session expired. Please refresh the page.") then
          {| toastMessage := toastMessage ui;
             lastToastId := Some error;
             reloads := S (reloads ui) |}
        else
          {| toastMessage := Some {| content := error; tone := "critical" |};
             lastToastId := Some error;
             reloads := reloads ui |}
      else ui
  | _ => ui
  end.

End Toasts.

(** A page of two collections for the loader, and a platform that serves it. *)
Definition demo_edges : list Loader.Edge :=
  [ {| Loader.e_cursor := "c1";
       Loader.e_node := {| Loader.n_id := "gid://shopify/Collection/1";
                           Loader.n_title := "Best sellers";
                           Loader.n_handle := "best-sellers";
                           Loader.n_sortOrder := "MANUAL";
                           Loader.n_count := Some 3;
                           Loader.n_rendered_at := Some "2024-05-01T10:00:00.000Z" |} |};
    {| Loader.e_cursor := "c2";
       Loader.e_node := {| Loader.n_id := "gid://shopify/Collection/4";
                           Loader.n_title := "New";
                           Loader.n_handle := "new";
                           Loader.n_sortOrder := "MANUAL";
                           Loader.n_count := None;
                           Loader.n_rendered_at := Some "" |} |} ].

Definition demo_connection : Loader.Connection :=
  {| Loader.c_pageInfo := Some {| Loader.hasNextPage := true;
                                  Loader.hasPreviousPage := false;
                                  Loader.endCursor := Some "c2";
                                  Loader.startCursor := Some "c1" |};
     Loader.c_edges := Some demo_edges |}.

(** Page numbers of the examples: decimal digits only. *)
Fixpoint digits_value (acc : nat) (s : string) : nat :=
  match s with
  | String a s' => digits_value (10 * acc + (Ascii.nat_of_ascii a - 48)) s'
  | EmptyString => acc
  end.
Definition demo_parseInt (s : string) : nat := digits_value 0 s.

Definition demo_loader_env (answer : option Loader.Connection)
    : Loader.LoaderEnv (W:=unit) :=
  {| Loader.l_authenticate := λ w,
       (Normal {| Loader.l_graphql := λ _ w, (Normal answer, w);
                  Loader.l_shop := Some "demo.myshopify.com" |}, w);
     Loader.l_SHOPIFY_SHOP := None |}.

(** ** A reference operating system

    Used to run the entrypoint scripts on concrete inputs: the paths that
    exist, the paths on which a file-system change throws, and how each
    command ends (commands that are not listed exit with code 0). *)
Record Box := {
  box_paths : gset string;
  box_readonly : gset string;
  box_exits : list (string * Entrypoint.Exit);
}.

Definition box_change (path : string) (paths : gset string) (b : Box)
    : completion unit * Box :=
  if decide (path ∈ box_readonly b)
  then (Thrown (Entrypoint.Error ("EROFS: read-only file system, " +:+ path)), b)
  else (Normal (), {| box_paths := paths; box_readonly := box_readonly b;
                      box_exits := box_exits b |}).

Definition box_exit (command : string) (b : Box) : Entrypoint.Exit :=
  default (Entrypoint.Exited (Some 0))
    ((λ found : nat * (string * Entrypoint.Exit), found.2.2)
       <$> list_find (λ ce, ce.1 = command) (box_exits b)).

Definition box_os : Entrypoint.OS Box :=
  {| Entrypoint.existsSync := λ path b, (bool_decide (path ∈ box_paths b), b);
     Entrypoint.unlinkSync := λ path b, box_change path (box_paths b ∖ {[path]}) b;
     Entrypoint.symlinkSync := λ _ path b, box_change path (box_paths b ∪ {[path]}) b;
     Entrypoint.writeFileSync := λ path _ b, box_change path (box_paths b ∪ {[path]}) b;
     Entrypoint.spawn := λ command _ b, (box_exit command b, b) |}.

(** Stand-ins for the two built-ins on the strings of the examples: these
    need no escaping, and the only white space to trim is ASCII. *)
Definition demo_stringify (s : string) : string :=
  Entrypoint.quote +:+ s +:+ Entrypoint.quote.

Definition ascii_space (a : Ascii.ascii) : bool :=
  bool_decide (Ascii.nat_of_ascii a ∈ [9; 10; 11; 12; 13; 32]).

Fixpoint trim_start (s : string) : string :=
  match s with
  | String a s' => if ascii_space a then trim_start s' else s
  | EmptyString => EmptyString
  end.

Definition demo_trim (s : string) : string :=
  String.rev (trim_start (String.rev (trim_start s))).

Definition start_argv : list string :=
  ["node"; "/app/docker-entrypoint.js"; "npm"; "run"; "start"].

(** A container without the volume, one with an empty volume, one whose
    migration fails, one whose restore fails, and one where the symlink
    cannot be created. *)
Definition bare_box : Box :=
  {| box_paths := ∅; box_readonly := ∅; box_exits := [] |}.
Definition fresh_box : Box :=
  {| box_paths := {["/data"]}; box_readonly := ∅; box_exits := [] |}.
Definition unmigratable_box : Box :=
  {| box_paths := {["/data"]}; box_readonly := ∅;
     box_exits := [(Entrypoint.migrate_command, Entrypoint.Exited (Some 1))] |}.
Definition unrestorable_box : Box :=
  {| box_paths := {["/data"]}; box_readonly := ∅;
     box_exits := [(Entrypoint.restore_command, Entrypoint.Exited (Some 1))] |}.
Definition readonly_box : Box :=
  {| box_paths := {["/data"]}; box_readonly := {[Entrypoint.source]};
     box_exits := [] |}.

Definition bucket_penv : gmap string string := {["BUCKET_NAME" := "backups"]}.

(** A container whose [/app/.env] cannot be written, and a process
    environment that sets [HOST] and [PORT]. *)
Definition sealed_box : Box :=
  {| box_paths := {["/data"]}; box_readonly := {["/app/.env"]}; box_exits := [] |}.

(** * Properties of the loop *)

Lemma tally_foldl pos r :
  foldl tally r pos =
    {| success := success r + length (filter (λ po, err_of po.2 = None) pos);
       failed := failed r + length (omap diagnostic pos);
       errors := errors r ++ omap diagnostic pos |}.
Proof.
  revert r. induction pos as [|[p o] pos IH]; intros r; simpl.
  - destruct r; simpl. f_equal; [lia | lia | by rewrite app_nil_r].
  - rewrite IH. unfold tally, diagnostic. simpl.
    destruct o as [b|e]; simpl.
    + f_equal; lia.
    + rewrite filter_cons_False by (simpl; congruence).
      change (list_omap _ _ ?f ?l) with (omap f l).
      f_equal; [lia | by rewrite <- app_assoc].
Qed.

Lemma tally_counts pos :
  success (foldl tally results0 pos) + failed (foldl tally results0 pos) = length pos
  ∧ length (errors (foldl tally results0 pos)) = failed (foldl tally results0 pos).
Proof.
  rewrite tally_foldl. simpl. split; [|done].
  induction pos as [|[p o] pos IH]; simpl; [done|].
  destruct o as [b|e]; simpl in *;
    change (list_omap _ _ ?f ?l) with (omap f l); [lia|].
  rewrite filter_cons_False by (simpl; congruence). lia.
Qed.

Lemma tally_all_ok ps outs r :
  length outs = length ps → Forall (λ o, is_thrown o = false) outs →
  foldl tally r (zip ps outs) =
    {| success := success r + length ps; failed := failed r; errors := errors r |}.
Proof.
  revert outs r. induction ps as [|p ps IH]; intros [|o outs] r Hlen Hok;
    simplify_eq/=.
  - destruct r; simpl. f_equal. lia.
  - inversion Hok as [|? ? Ho Hok']; subst.
    destruct o as [b|e]; [|done].
    rewrite IH by done. unfold tally. simpl. f_equal. lia.
Qed.

Lemma tally_one_thrown k : ∀ ps outs r p e,
  length outs = length ps →
  ps !! k = Some p → outs !! k = Some (Thrown e) →
  (∀ j o, outs !! j = Some o → is_thrown o = true → j = k) →
  foldl tally r (zip ps outs) =
    {| success := success r + (length ps - 1);
       failed := S (failed r);
       errors := errors r ++ [{| productId := p_id p; title := p_title p;
                                 error := err_message e |}] |}.
Proof.
  induction k as [|k IH]; intros [|p0 ps] [|o outs] r p e Hlen Hp Ho Honly;
    simplify_eq/=.
  - rewrite tally_all_ok; [simpl; f_equal; lia | done |].
    apply Forall_lookup. intros j o Hj.
    destruct (is_thrown o) eqn:Hthrown; [|done].
    by specialize (Honly (S j) o Hj Hthrown).
  - destruct o as [b|e0].
    2:{ by specialize (Honly 0 (Thrown e0) eq_refl eq_refl). }
    rewrite (IH ps outs _ p e); try done.
    + unfold tally. simpl. apply lookup_lt_Some in Hp. f_equal. lia.
    + intros j o Hj Hthrown. specialize (Honly (S j) o Hj Hthrown). lia.
Qed.

Lemma zip_calls_req reqs outs :
  length outs = length reqs → call_req <$> zip_with Build_Call reqs outs = reqs.
Proof.
  revert outs. induction reqs as [|r reqs IH]; intros [|o outs] ?; simplify_eq/=; [done|].
  f_equal. by apply IH.
Qed.

Lemma zip_calls_out reqs outs :
  length outs = length reqs → call_out <$> zip_with Build_Call reqs outs = outs.
Proof.
  revert outs. induction reqs as [|r reqs IH]; intros [|o outs] ?; simplify_eq/=; [done|].
  f_equal. by apply IH.
Qed.

Lemma rank_requests_length handle i ps : length (rank_requests handle i ps) = length ps.
Proof. unfold rank_requests. by rewrite length_imap. Qed.

Lemma rank_requests_cons handle i p ps :
  rank_requests handle i (p :: ps) = rank_request handle i p :: rank_requests handle (S i) ps.
Proof.
  unfold rank_requests. simpl. rewrite Nat.add_0_r. f_equal.
  apply imap_ext. intros j x _. simpl. f_equal. lia.
Qed.

Lemma product_writes_zip handle i ps outs :
  product_writes (zip_with Build_Call (rank_requests handle i ps) outs)
  = zip_with Build_Call (rank_requests handle i ps) outs.
Proof.
  revert i outs. induction ps as [|p ps IH]; intros i outs; [done|].
  rewrite rank_requests_cons. destruct outs as [|o outs]; [done|]. simpl.
  unfold product_writes. rewrite filter_cons_True by done.
  f_equal. apply IH.
Qed.

Lemma rank_requests_mutations handle i ps :
  filter (λ rq, is_mutation rq) (rank_requests handle i ps) = rank_requests handle i ps.
Proof.
  revert i. induction ps as [|p ps IH]; intros i; [done|].
  rewrite rank_requests_cons, filter_cons_True by done. f_equal. apply IH.
Qed.

(** What can be read off a trace made of a query, the rank requests with
    their outcomes, and further calls that are not product mutations. *)
Lemma trace_observed fetched handle ps outs tail :
  length outs = length ps →
  is_ProductUpdate (call_req fetched) = false →
  Forall (λ c, is_ProductUpdate (call_req c) = false) tail →
  let tr := fetched :: zip_with Build_Call (rank_requests handle 0 ps) outs ++ tail in
  write_requests tr = rank_requests handle 0 ps ∧ write_outcomes tr = outs.
Proof.
  intros Hlen Hf Htail tr. subst tr.
  assert (product_writes
            (fetched :: zip_with Build_Call (rank_requests handle 0 ps) outs ++ tail)
          = zip_with Build_Call (rank_requests handle 0 ps) outs) as Hw.
  { unfold product_writes.
    rewrite filter_cons_False by (intros H; by rewrite Hf in H).
    rewrite filter_app. fold (product_writes (zip_with Build_Call
      (rank_requests handle 0 ps) outs)). rewrite product_writes_zip.
    replace (filter _ tail) with (@nil Call); [by rewrite app_nil_r|].
    clear -Htail. induction Htail as [|c tail Hc _ IH]; [done|].
    rewrite filter_cons_False by (intros H; by rewrite Hc in H). done. }
  unfold write_requests, write_outcomes. rewrite Hw.
  rewrite zip_calls_req, zip_calls_out by (by rewrite rank_requests_length). done.
Qed.

Section loop_facts.
Context {W : Type} (setMF : string → string → nat → M W Body) (handle : string).
Hypothesis one_write : issues_one_write setMF.

(** The loop never throws; it sends one rank request per product, in list
    order, and its result is the tally of the outcomes. *)
Lemma rank_loop_spec ps i r s :
  ∃ outs,
    length outs = length ps
    ∧ calls (rank_loop setMF handle ps i r s).2 =
        calls s ++ zip_with Build_Call (rank_requests handle i ps) outs
    ∧ (rank_loop setMF handle ps i r s).1 = Normal (foldl tally r (zip ps outs)).
Proof using one_write.
  revert i r s. induction ps as [|p ps IH]; intros i r s.
  - exists []. simpl. by rewrite app_nil_r.
  - cbn -[rank_requests]. unfold bind, try_catch, console_put, ret. cbn -[rank_requests].
    match goal with
    | |- context [setMF ?a ?b ?c ?s1] =>
        destruct (one_write a b c s1) as (out & Hc & He);
        destruct (setMF a b c s1) as [[b0|e] s2] eqn:Hrun
    end; cbn -[rank_requests] in *.
    + destruct (IH (S i) (success_incr r) s2) as (outs & Hl & Hcalls & Hres).
      exists (out :: outs). rewrite rank_requests_cons. simpl.
      split; [by rewrite Hl|]. split.
      * rewrite Hcalls, Hc. by rewrite <- app_assoc.
      * rewrite Hres. cbn [zip zip_with foldl].
        replace (tally r (p, out)) with (success_incr r); [done|].
        unfold tally. cbn [snd fst]. by rewrite <- He.
    + match goal with
      | |- context [rank_loop _ _ _ _ ?r' ?s3] =>
          destruct (IH (S i) r' s3) as (outs & Hl & Hcalls & Hres)
      end.
      exists (out :: outs). rewrite rank_requests_cons. simpl.
      split; [by rewrite Hl|]. split.
      * rewrite Hcalls. simpl. rewrite Hc. by rewrite <- app_assoc.
      * rewrite Hres. cbn [zip zip_with foldl].
        replace (tally r (p, out)) with (failed_push r p e); [done|].
        unfold tally. cbn [snd fst]. by rewrite <- He.
Qed.

(** The loop read through the calls it added to the trace. *)
Lemma rank_loop_observed ps s :
  let r := rank_loop setMF handle ps 0 results0 s in
  let tr := drop (length (calls s)) (calls r.2) in
  write_requests tr = rank_requests handle 0 ps
  ∧ length (write_outcomes tr) = length ps
  ∧ r.1 = Normal (foldl tally results0 (zip ps (write_outcomes tr))).
Proof using one_write.
  intros r tr.
  destruct (rank_loop_spec ps 0 results0 s) as (outs & Hlen & Hcalls & Hres).
  subst tr r. rewrite Hcalls, Hres, drop_app_length.
  unfold write_requests, write_outcomes. rewrite product_writes_zip.
  rewrite zip_calls_req, zip_calls_out by (by rewrite rank_requests_length).
  done.
Qed.
End loop_facts.

(** * What a run of each handler does *)

Lemma session_one_write {W} (admin : Admin W) :
  issues_one_write (Session.setProductMetafield admin).
Proof.
  intros pid key value s.
  unfold Session.setProductMetafield, Session.graphql, round_trip, bind.
  destruct (admin_graphql admin _ (world s)) as [[b|e] w'] eqn:Hstep.
  - exists (Normal b). destruct (productUpdate_userErrors b); done.
  - by exists (Thrown e).
Qed.

Lemma prototype_one_write {W} (env : ProcEnv W) shop accessToken :
  issues_one_write (Prototype.setProductMetafield env shop accessToken).
Proof.
  intros pid key value s.
  unfold Prototype.setProductMetafield, Prototype.shopifyGraphQL, round_trip, bind.
  destruct (fetch env shop accessToken _ (world s)) as [[b|e] w'] eqn:Hstep.
  - by exists (Normal b).
  - by exists (Thrown e).
Qed.

Section session_runs.
Context {W : Type} (env : Env W) (request : HttpRequest) (form : FormData) (w : W).
Local Abbreviation run := (Session.action env request (init w)).
Local Abbreviation fetch_request := (GetCollection (collectionId form) 100 "MANUAL").

Lemma session_not_found :
  session_fetches env request form w None →
  run.1 = Normal not_found ∧ call_req <$> calls run.2 = [fetch_request].
Proof.
  intros (Hform & admin & w1 & b & w2 & Hauth & Hfetch & Hc).
  unfold Session.action, Session.graphql, round_trip, bind, try_catch,
    console_put, await, ret, init. cbn.
  rewrite Hauth, Hform. cbn. rewrite Hfetch. cbn. rewrite Hc. done.
Qed.

Lemma session_invalid_state c :
  session_fetches env request form w (Some c) → c_sortOrder c ≠ "MANUAL" →
  run.1 = Normal invalid_state ∧ call_req <$> calls run.2 = [fetch_request].
Proof.
  intros (Hform & admin & w1 & b & w2 & Hauth & Hfetch & Hc) Hsort.
  unfold Session.action, Session.graphql, round_trip, bind, try_catch,
    console_put, await, ret, init. cbn.
  rewrite Hauth, Hform. cbn. rewrite Hfetch. cbn. rewrite Hc.
  rewrite bool_decide_eq_true_2 by done. done.
Qed.

(** Past both guards: the trace is the query, one rank request per product
    and the [rendered_at] stamp; the response is built from the tally,
    unless the stamp throws. *)
Lemma session_action_spec c :
  session_fetches env request form w (Some c) → c_sortOrder c = "MANUAL" →
  ∃ fetched outs w' stamp,
    length outs = length (c_products c)
    ∧ calls run.2 =
        {| call_req := fetch_request; call_out := Normal fetched |}
        :: zip_with Build_Call
             (rank_requests (collectionHandle form) 0 (c_products c)) outs
        ++ [{| call_req := CollectionUpdate (collectionId form)
                             [Session.rendered_at (date_now env w')];
               call_out := stamp |}]
    ∧ run.1 = Normal
        match stamp with
        | Normal _ => success_response (foldl tally results0 (zip (c_products c) outs))
        | Thrown e => Session.error_response e
        end
    ∧ ∃ admin w3,
        admin_graphql admin
          (CollectionUpdate (collectionId form) [Session.rendered_at (date_now env w')]) w'
          = (stamp, w3)
        ∧ world run.2 = w3.
Proof.
  intros (Hform & admin & w1 & b & w2 & Hauth & Hfetch & Hc) Hsort.
  destruct (Session.action env request (init w)) as [resp sf] eqn:Hrun.
  cbn [fst snd]. revert Hrun.
  unfold Session.action, bind at 1, try_catch, bind at 1, bind at 1.
  unfold console_put at 1, init. cbn -[rank_requests].
  rewrite Hauth. unfold await, bind at 1. rewrite Hform. cbn -[rank_requests].
  unfold bind at 1, bind at 1, console_put at 1. cbn -[rank_requests].
  unfold Session.graphql at 1, round_trip at 1. cbn -[rank_requests].
  rewrite Hfetch. unfold bind at 1, console_put at 1. cbn -[rank_requests].
  rewrite Hc, Hsort. rewrite bool_decide_eq_false_2 by (intros H; by apply H).
  unfold bind at 1.
  match goal with
  | |- context [rank_loop ?f ?h ?ps 0 results0 ?s] =>
      destruct (rank_loop_spec f h (session_one_write admin) ps 0 results0 s)
        as (outs & Hlen & Hcalls & Hres);
      destruct (rank_loop f h ps 0 results0 s) as [r s'] eqn:Hloop
  end.
  cbn -[rank_requests] in Hcalls, Hres. subst r.
  unfold bind at 1, console_put at 1. cbn -[rank_requests].
  unfold bind at 1, bind at 1, Session.graphql, round_trip. cbn -[rank_requests].
  destruct (admin_graphql admin _ (world s')) as [stamp w3] eqn:Hstamp.
  intros Hrun. exists b, outs, (world s'), stamp. split; [done|].
  destruct stamp as [b0|e]; cbn -[rank_requests] in Hrun;
    injection Hrun as <- <-; cbn -[rank_requests]; rewrite Hcalls;
    (split; [done|]; split; [done|]; by exists admin, w3).
Qed.

(** The same run, read through the observations on its trace. *)
Lemma session_observed c :
  session_fetches env request form w (Some c) → c_sortOrder c = "MANUAL" →
  write_requests (calls run.2)
    = rank_requests (collectionHandle form) 0 (c_products c)
  ∧ length (write_outcomes (calls run.2)) = length (c_products c)
  ∧ head (call_req <$> calls run.2) = Some fetch_request
  ∧ ∃ w' stamp,
      mutations (calls run.2) =
        rank_requests (collectionHandle form) 0 (c_products c)
        ++ [CollectionUpdate (collectionId form)
              [Session.rendered_at (date_now env w')]]
      ∧ last_outcome (calls run.2) = Some stamp
      ∧ run.1 = Normal
          match stamp with
          | Normal _ =>
              success_response
                (foldl tally results0
                   (zip (c_products c) (write_outcomes (calls run.2))))
          | Thrown e => Session.error_response e
          end
      ∧ ∃ admin w3,
          admin_graphql admin
            (CollectionUpdate (collectionId form)
               [Session.rendered_at (date_now env w')]) w'
            = (stamp, w3)
          ∧ world run.2 = w3.
Proof.
  intros Hf Hsort.
  destruct (session_action_spec c Hf Hsort)
    as (fetched & outs & w' & stamp & Hlen & Hcalls & Hres & Hsent).
  rewrite Hcalls, Hres.
  match goal with
  | |- context [?f :: zip_with Build_Call ?rs outs ++ [?st]] =>
      destruct (trace_observed f (collectionHandle form) (c_products c) outs [st])
        as [Hreq Hout]; [done | done | by repeat constructor |]
  end.
  rewrite Hreq, Hout. split; [done|]. split; [done|]. split; [done|].
  exists w', stamp. split; [|split; [|done]].
  - unfold mutations. rewrite fmap_cons, fmap_app, zip_calls_req
      by (by rewrite rank_requests_length).
    rewrite filter_cons_False by (simpl; auto).
    rewrite filter_app, rank_requests_mutations. done.
  - unfold last_outcome. rewrite app_comm_cons, last_snoc. done.
Qed.
End session_runs.

Section session_fetch_throws.
Context {W : Type} (env : Env W) (request : HttpRequest) (form : FormData) (w : W).

(** An exception of the collection query reaches the outer [catch]. *)
Lemma session_fetch_thrown admin w1 e w2 :
  formData request = Normal form →
  authenticate_admin env request w = (Normal (Some admin), w1) →
  admin_graphql admin (GetCollection (collectionId form) 100 "MANUAL") w1
    = (Thrown e, w2) →
  (Session.action env request (init w)).1 = Normal (Session.error_response e)
  ∧ mutations (calls (Session.action env request (init w)).2) = [].
Proof.
  intros Hform Hauth Hfetch.
  unfold Session.action, Session.graphql, round_trip, bind, try_catch,
    console_put, await, ret, init. cbn.
  rewrite Hauth, Hform. cbn. rewrite Hfetch. done.
Qed.
End session_fetch_throws.

Section prototype_runs.
Context {W : Type} (env : ProcEnv W) (request : HttpRequest) (form : FormData) (w : W).
Local Abbreviation run := (Prototype.action env request (init w)).
Local Abbreviation fetch_request := (GetCollection (collectionId form) 100 "MANUAL").

Lemma prototype_not_found :
  prototype_fetches env request form w None →
  run.1 = Normal not_found ∧ call_req <$> calls run.2 = [fetch_request].
Proof.
  intros (Hform & shop & tok & b & w1 & Hshop & Htok & Hfetch & Hc).
  unfold Prototype.action, Prototype.shopifyGraphQL, round_trip, bind,
    try_catch, console_put, await, ret, init. cbn.
  rewrite Hform, Hshop, Htok. cbn. rewrite Hfetch. cbn. rewrite Hc. done.
Qed.

Lemma prototype_invalid_state c :
  prototype_fetches env request form w (Some c) → c_sortOrder c ≠ "MANUAL" →
  run.1 = Normal invalid_state ∧ call_req <$> calls run.2 = [fetch_request].
Proof.
  intros (Hform & shop & tok & b & w1 & Hshop & Htok & Hfetch & Hc) Hsort.
  unfold Prototype.action, Prototype.shopifyGraphQL, round_trip, bind,
    try_catch, console_put, await, ret, init. cbn.
  rewrite Hform, Hshop, Htok. cbn. rewrite Hfetch. cbn. rewrite Hc.
  rewrite bool_decide_eq_true_2 by done. done.
Qed.

Lemma prototype_fetch_thrown shop accessToken e w1 :
  formData request = Normal form →
  truthy (SHOPIFY_SHOP env) = Some shop →
  truthy (SHOPIFY_ACCESS_TOKEN env) = Some accessToken →
  fetch env shop accessToken fetch_request w = (Thrown e, w1) →
  run.1 = Normal (Prototype.error_response e) ∧ mutations (calls run.2) = [].
Proof.
  intros Hform Hshop Htok Hfetch.
  unfold Prototype.action, Prototype.shopifyGraphQL, round_trip, bind,
    try_catch, console_put, await, ret, init. cbn.
  rewrite Hform, Hshop, Htok. cbn. rewrite Hfetch. done.
Qed.

(** Past both guards: the trace is the query and one rank request per
    product; the response is always built from the tally. *)
Lemma prototype_action_spec c :
  prototype_fetches env request form w (Some c) → c_sortOrder c = "MANUAL" →
  ∃ fetched outs,
    length outs = length (c_products c)
    ∧ calls run.2 =
        {| call_req := fetch_request; call_out := Normal fetched |}
        :: zip_with Build_Call
             (rank_requests (collectionHandle form) 0 (c_products c)) outs
    ∧ run.1 = Normal
        (success_response (foldl tally results0 (zip (c_products c) outs))).
Proof.
  intros (Hform & shop & tok & b & w1 & Hshop & Htok & Hfetch & Hc) Hsort.
  destruct (Prototype.action env request (init w)) as [resp sf] eqn:Hrun.
  cbn [fst snd]. revert Hrun.
  unfold Prototype.action, await, bind at 1. rewrite Hform, Hshop, Htok.
  unfold try_catch, bind at 1, console_put at 1, init. cbn -[rank_requests].
  unfold bind at 1, Prototype.shopifyGraphQL at 1, bind at 1, round_trip at 1.
  cbn -[rank_requests]. rewrite Hfetch. unfold ret at 1. cbn -[rank_requests].
  rewrite Hc, Hsort. rewrite bool_decide_eq_false_2 by (intros H; by apply H).
  unfold bind at 1.
  match goal with
  | |- context [rank_loop ?f ?h ?ps 0 results0 ?s] =>
      destruct (rank_loop_spec f h (prototype_one_write env shop tok) ps 0 results0 s)
        as (outs & Hlen & Hcalls & Hres);
      destruct (rank_loop f h ps 0 results0 s) as [r s'] eqn:Hloop
  end.
  cbn -[rank_requests] in Hcalls, Hres. subst r.
  unfold bind at 1, console_put at 1, ret. cbn -[rank_requests].
  intros Hrun. injection Hrun as <- <-. exists b, outs.
  cbn -[rank_requests]. by rewrite Hcalls.
Qed.

(** The same run, read through the observations on its trace. *)
Lemma prototype_observed c :
  prototype_fetches env request form w (Some c) → c_sortOrder c = "MANUAL" →
  write_requests (calls run.2)
    = rank_requests (collectionHandle form) 0 (c_products c)
  ∧ length (write_outcomes (calls run.2)) = length (c_products c)
  ∧ head (call_req <$> calls run.2) = Some fetch_request
  ∧ mutations (calls run.2)
      = rank_requests (collectionHandle form) 0 (c_products c)
  ∧ run.1 = Normal
      (success_response
         (foldl tally results0
            (zip (c_products c) (write_outcomes (calls run.2))))).
Proof.
  intros Hf Hsort.
  destruct (prototype_action_spec c Hf Hsort)
    as (fetched & outs & Hlen & Hcalls & Hres).
  rewrite Hcalls, Hres.
  match goal with
  | |- context [?f :: zip_with Build_Call ?rs outs] =>
      destruct (trace_observed f (collectionHandle form) (c_products c) outs [])
        as [Hreq Hout]; [done | done | by constructor |]
  end.
  rewrite app_nil_r in Hreq, Hout.
  rewrite Hreq, Hout. split; [done|]. split; [done|]. split; [done|].
  split; [|done].
  unfold mutations. rewrite fmap_cons, zip_calls_req
    by (by rewrite rank_requests_length).
  rewrite filter_cons_False by (simpl; auto).
  apply rank_requests_mutations.
Qed.
End prototype_runs.



(** * The guards *)

Lemma query_only_no_mutation (tr : list Call) id :
  call_req <$> tr = [GetCollection id 100 "MANUAL"] → mutations tr = [].
Proof. unfold mutations. by intros ->. Qed.

(** Discharges [session_fetches] and [prototype_fetches] on a concrete shop. *)
Ltac fetches :=
  split; [reflexivity | do 4 eexists; repeat split; reflexivity].

(** C4: when the identifier resolves to a collection whose [sortOrder] is
    not ["MANUAL"], either handler answers with status 400 and the error
    "Collection is not manual sort" (no [results] member), and the only
    request it has issued is the collection query: no mutation at all. *)
Theorem not_manual_invalid_state :
  (∀ W (env : Env W) request form w c,
     session_fetches env request form w (Some c) → c_sortOrder c ≠ "MANUAL" →
     (Session.action env request (init w)).1
       = Normal {| status := 400; body := ErrorBody "Collection is not manual sort" |}
     ∧ call_req <$> calls (Session.action env request (init w)).2
       = [GetCollection (collectionId form) 100 "MANUAL"]
     ∧ mutations (calls (Session.action env request (init w)).2) = [])
  ∧ (∀ W (env : ProcEnv W) request form w c,
     prototype_fetches env request form w (Some c) → c_sortOrder c ≠ "MANUAL" →
     (Prototype.action env request (init w)).1
       = Normal {| status := 400; body := ErrorBody "Collection is not manual sort" |}
     ∧ call_req <$> calls (Prototype.action env request (init w)).2
       = [GetCollection (collectionId form) 100 "MANUAL"]
     ∧ mutations (calls (Prototype.action env request (init w)).2) = []).
Proof.
  split; intros W env request form w c Hf Hsort.
  - destruct (session_invalid_state env request form w c Hf Hsort) as [Hr Htr].
    eauto using query_only_no_mutation.
  - destruct (prototype_invalid_state env request form w c Hf Hsort) as [Hr Htr].
    eauto using query_only_no_mutation.
Qed.

Lemma not_manual_invalid_state_witness :
  let form := {| collectionId := c_id by_price; collectionHandle := c_handle by_price |} in
  ((Session.action shop_env (render by_price) (init (demo_shop ∅ ∅))).1
     = Normal {| status := 400; body := ErrorBody "Collection is not manual sort" |}
   ∧ call_req <$> calls (Session.action shop_env (render by_price) (init (demo_shop ∅ ∅))).2
     = [GetCollection (collectionId form) 100 "MANUAL"]
   ∧ mutations (calls (Session.action shop_env (render by_price) (init (demo_shop ∅ ∅))).2) = [])
  ∧ ((Prototype.action shop_proc_env (render by_price) (init (demo_shop ∅ ∅))).1
     = Normal {| status := 400; body := ErrorBody "Collection is not manual sort" |}
   ∧ call_req <$> calls (Prototype.action shop_proc_env (render by_price) (init (demo_shop ∅ ∅))).2
     = [GetCollection (collectionId form) 100 "MANUAL"]
   ∧ mutations (calls (Prototype.action shop_proc_env (render by_price) (init (demo_shop ∅ ∅))).2) = []).
Proof.
  intros form. split.
  - apply (proj1 not_manual_invalid_state Shop shop_env (render by_price) form
             (demo_shop ∅ ∅) by_price); [fetches | discriminate].
  - apply (proj2 not_manual_invalid_state Shop shop_proc_env (render by_price) form
             (demo_shop ∅ ∅) by_price); [fetches | discriminate].
Defined.

(** C5: when the collection query answers without a collection (the
    identifier does not resolve), either handler answers with status 404 and
    the error "Collection not found" (no [results] member), and the only
    request it has issued is the collection query: no mutation at all. *)
Theorem unresolved_not_found :
  (∀ W (env : Env W) request form w,
     session_fetches env request form w None →
     (Session.action env request (init w)).1
       = Normal {| status := 404; body := ErrorBody "Collection not found" |}
     ∧ call_req <$> calls (Session.action env request (init w)).2
       = [GetCollection (collectionId form) 100 "MANUAL"]
     ∧ mutations (calls (Session.action env request (init w)).2) = [])
  ∧ (∀ W (env : ProcEnv W) request form w,
     prototype_fetches env request form w None →
     (Prototype.action env request (init w)).1
       = Normal {| status := 404; body := ErrorBody "Collection not found" |}
     ∧ call_req <$> calls (Prototype.action env request (init w)).2
       = [GetCollection (collectionId form) 100 "MANUAL"]
     ∧ mutations (calls (Prototype.action env request (init w)).2) = []).
Proof.
  split; intros W env request form w Hf.
  - destruct (session_not_found env request form w Hf) as [Hr Htr].
    eauto using query_only_no_mutation.
  - destruct (prototype_not_found env request form w Hf) as [Hr Htr].
    eauto using query_only_no_mutation.
Qed.

Lemma unresolved_not_found_witness :
  ((Session.action shop_env render_missing (init (demo_shop ∅ ∅))).1
     = Normal {| status := 404; body := ErrorBody "Collection not found" |}
   ∧ call_req <$> calls (Session.action shop_env render_missing (init (demo_shop ∅ ∅))).2
     = [GetCollection "gid://shopify/Collection/404" 100 "MANUAL"]
   ∧ mutations (calls (Session.action shop_env render_missing (init (demo_shop ∅ ∅))).2) = [])
  ∧ ((Prototype.action shop_proc_env render_missing (init (demo_shop ∅ ∅))).1
     = Normal {| status := 404; body := ErrorBody "Collection not found" |}
   ∧ call_req <$> calls (Prototype.action shop_proc_env render_missing (init (demo_shop ∅ ∅))).2
     = [GetCollection "gid://shopify/Collection/404" 100 "MANUAL"]
   ∧ mutations (calls (Prototype.action shop_proc_env render_missing (init (demo_shop ∅ ∅))).2) = []).
Proof.
  split.
  - apply (proj1 unresolved_not_found Shop shop_env render_missing
             {| collectionId := "gid://shopify/Collection/404"; collectionHandle := "gone" |}
             (demo_shop ∅ ∅)); fetches.
  - apply (proj2 unresolved_not_found Shop shop_proc_env render_missing
             {| collectionId := "gid://shopify/Collection/404"; collectionHandle := "gone" |}
             (demo_shop ∅ ∅)); fetches.
Defined.


(** * The ranks that are written *)

Lemma rank_requests_explicit handle ps :
  rank_requests handle 0 ps =
    imap (λ i p, ProductUpdate (p_id p)
                   [{| mf_namespace := "custom"; mf_key := handle +:+ "_rank";
                       mf_type := "number_integer"; mf_value := pretty (i + 1) |}]) ps.
Proof. unfold rank_requests. by apply imap_ext. Qed.

Lemma tally_exactly_one ps outs k :
  length outs = length ps → k < length ps →
  (∀ j o, outs !! j = Some o → (is_thrown o = true ↔ j = k)) →
  ∃ p e, ps !! k = Some p ∧ outs !! k = Some (Thrown e)
    ∧ foldl tally results0 (zip ps outs) =
        {| success := length ps - 1; failed := 1;
           errors := [{| productId := p_id p; title := p_title p;
                         error := err_message e |}] |}.
Proof.
  intros Hlen Hk Honly.
  destruct (lookup_lt_is_Some_2 ps k Hk) as [p Hp].
  destruct (lookup_lt_is_Some_2 outs k) as [o Ho]; [lia|].
  destruct o as [b|e].
  { pose proof (proj2 (Honly k _ Ho) eq_refl) as Hx. discriminate Hx. }
  exists p, e. split; [done|]. split; [done|].
  rewrite (tally_one_thrown k ps outs results0 p e); try done.
  intros j o Hj Hthrown. by apply (Honly j o Hj).
Qed.

(** C1: when the identifier resolves to a manually sorted collection and
    every product write of the run completes normally, the product
    mutations issued are exactly one per product, in list order, the one for
    the product at 0-based index [i] setting the [number_integer] metafield
    [custom.<handle>_rank] to the decimal text of [i + 1]; the loop yields
    [{ success: N, failed: 0, errors: [] }].  This is shown for the loop of
    the session handler, for the whole session handler (which returns that
    result once its closing call has completed normally) and for the whole
    prototype handler.  No bound on [N] is needed. *)
Theorem all_writes_succeed_ranks :
  (∀ W (admin : Admin W) handle ps s,
     let r := rank_loop (Session.setProductMetafield admin) handle ps 0 results0 s in
     let tr := drop (length (calls s)) (calls r.2) in
     Forall (λ o, is_thrown o = false) (write_outcomes tr) →
     write_requests tr =
       imap (λ i p, ProductUpdate (p_id p)
                      [{| mf_namespace := "custom"; mf_key := handle +:+ "_rank";
                          mf_type := "number_integer"; mf_value := pretty (i + 1) |}]) ps
     ∧ r.1 = Normal {| success := length ps; failed := 0; errors := [] |})
  ∧ (∀ W (env : Env W) request form w c,
     session_fetches env request form w (Some c) → c_sortOrder c = "MANUAL" →
     let run := Session.action env request (init w) in
     Forall (λ o, is_thrown o = false) (write_outcomes (calls run.2)) →
     write_requests (calls run.2) =
       imap (λ i p, ProductUpdate (p_id p)
                      [{| mf_namespace := "custom";
                          mf_key := collectionHandle form +:+ "_rank";
                          mf_type := "number_integer"; mf_value := pretty (i + 1) |}])
         (c_products c)
     ∧ ∀ b, last_outcome (calls run.2) = Some (Normal b) →
         run.1 = Normal (success_response
                   {| success := length (c_products c); failed := 0; errors := [] |}))
  ∧ (∀ W (env : ProcEnv W) request form w c,
     prototype_fetches env request form w (Some c) → c_sortOrder c = "MANUAL" →
     let run := Prototype.action env request (init w) in
     Forall (λ o, is_thrown o = false) (write_outcomes (calls run.2)) →
     mutations (calls run.2) =
       imap (λ i p, ProductUpdate (p_id p)
                      [{| mf_namespace := "custom";
                          mf_key := collectionHandle form +:+ "_rank";
                          mf_type := "number_integer"; mf_value := pretty (i + 1) |}])
         (c_products c)
     ∧ run.1 = Normal (success_response
                 {| success := length (c_products c); failed := 0; errors := [] |})).
Proof.
  split; [|split].
  - intros W admin handle ps s r tr Hok.
    destruct (rank_loop_observed _ handle (session_one_write admin) ps s)
      as (Hreq & Hlen & Hres).
    fold r in Hreq, Hlen, Hres. fold tr in Hreq, Hlen, Hres.
    rewrite Hreq, Hres, rank_requests_explicit. split; [done|].
    by rewrite tally_all_ok.
  - intros W env request form w c Hf Hsort run Hok.
    destruct (session_observed env request form w c Hf Hsort)
      as (Hreq & Hlen & _ & w' & stamp & _ & Hlast & Hres & _).
    fold run in Hreq, Hlen, Hlast, Hres.
    rewrite Hreq, rank_requests_explicit. split; [done|].
    intros b Hb. rewrite Hlast in Hb. injection Hb as ->.
    rewrite Hres. by rewrite tally_all_ok.
  - intros W env request form w c Hf Hsort run Hok.
    destruct (prototype_observed env request form w c Hf Hsort)
      as (Hreq & Hlen & _ & Hmut & Hres).
    fold run in Hreq, Hlen, Hmut, Hres.
    rewrite Hmut, rank_requests_explicit. split; [done|].
    rewrite Hres. by rewrite tally_all_ok.
Qed.

Lemma all_writes_succeed_ranks_witness :
  (rank_loop (Session.setProductMetafield shop_admin) "best-sellers" [pA; pB; pC]
     0 results0 (init (demo_shop ∅ ∅))).1
    = Normal {| success := 3; failed := 0; errors := [] |}
  ∧ (Session.action shop_env (render best_sellers) (init (demo_shop ∅ ∅))).1
    = Normal (success_response {| success := 3; failed := 0; errors := [] |})
  ∧ mutations (calls (Prototype.action shop_proc_env (render best_sellers)
                        (init (demo_shop ∅ ∅))).2)
    = [ProductUpdate (p_id pA) [rank_metafield "best-sellers_rank" 1];
       ProductUpdate (p_id pB) [rank_metafield "best-sellers_rank" 2];
       ProductUpdate (p_id pC) [rank_metafield "best-sellers_rank" 3]].
Proof.
  split; [|split].
  - refine (proj2 (proj1 all_writes_succeed_ranks Shop shop_admin "best-sellers"
                     [pA; pB; pC] (init (demo_shop ∅ ∅)) _)).
    vm_compute. repeat constructor.
  - refine (proj2 (proj1 (proj2 all_writes_succeed_ranks) Shop shop_env
                     (render best_sellers)
                     {| collectionId := c_id best_sellers;
                        collectionHandle := c_handle best_sellers |}
                     (demo_shop ∅ ∅) best_sellers _ _ _)
                  {| body_data := Some (D_collectionUpdate []) |} _).
    + fetches.
    + reflexivity.
    + vm_compute. repeat constructor.
    + vm_compute. reflexivity.
  - refine (proj1 (proj2 (proj2 all_writes_succeed_ranks) Shop shop_proc_env
                     (render best_sellers)
                     {| collectionId := c_id best_sellers;
                        collectionHandle := c_handle best_sellers |}
                     (demo_shop ∅ ∅) best_sellers _ _ _)).
    + fetches.
    + reflexivity.
    + vm_compute. repeat constructor.
Defined.

(** C2: when exactly one product write of the run throws, the one at index
    [k], the loop still sends the rank request of every product, in order,
    and yields [success = N - 1], [failed = 1] and an [errors] list holding
    the identifier, title and error message of product [k].  This is shown
    for the loop of the session handler, for the whole session handler
    (which returns that result once its closing call has completed
    normally) and for the whole prototype handler. *)
Theorem one_write_throws_rest_continue :
  (∀ W (admin : Admin W) handle ps s k,
     let r := rank_loop (Session.setProductMetafield admin) handle ps 0 results0 s in
     let tr := drop (length (calls s)) (calls r.2) in
     k < length ps →
     (∀ j o, write_outcomes tr !! j = Some o → (is_thrown o = true ↔ j = k)) →
     ∃ p e, ps !! k = Some p ∧ write_outcomes tr !! k = Some (Thrown e)
       ∧ write_requests tr = rank_requests handle 0 ps
       ∧ r.1 = Normal {| success := length ps - 1; failed := 1;
                         errors := [{| productId := p_id p; title := p_title p;
                                       error := err_message e |}] |})
  ∧ (∀ W (env : Env W) request form w c k,
     session_fetches env request form w (Some c) → c_sortOrder c = "MANUAL" →
     let run := Session.action env request (init w) in
     k < length (c_products c) →
     (∀ j o, write_outcomes (calls run.2) !! j = Some o → (is_thrown o = true ↔ j = k)) →
     ∃ p e, c_products c !! k = Some p
       ∧ write_outcomes (calls run.2) !! k = Some (Thrown e)
       ∧ write_requests (calls run.2)
           = rank_requests (collectionHandle form) 0 (c_products c)
       ∧ ∀ b, last_outcome (calls run.2) = Some (Normal b) →
           run.1 = Normal (success_response
                     {| success := length (c_products c) - 1; failed := 1;
                        errors := [{| productId := p_id p; title := p_title p;
                                      error := err_message e |}] |}))
  ∧ (∀ W (env : ProcEnv W) request form w c k,
     prototype_fetches env request form w (Some c) → c_sortOrder c = "MANUAL" →
     let run := Prototype.action env request (init w) in
     k < length (c_products c) →
     (∀ j o, write_outcomes (calls run.2) !! j = Some o → (is_thrown o = true ↔ j = k)) →
     ∃ p e, c_products c !! k = Some p
       ∧ write_outcomes (calls run.2) !! k = Some (Thrown e)
       ∧ mutations (calls run.2)
           = rank_requests (collectionHandle form) 0 (c_products c)
       ∧ run.1 = Normal (success_response
                   {| success := length (c_products c) - 1; failed := 1;
                      errors := [{| productId := p_id p; title := p_title p;
                                    error := err_message e |}] |})).
Proof.
  split; [|split].
  - intros W admin handle ps s k r tr Hk Honly.
    destruct (rank_loop_observed _ handle (session_one_write admin) ps s)
      as (Hreq & Hlen & Hres).
    fold r in Hreq, Hlen, Hres. fold tr in Hreq, Hlen, Hres.
    destruct (tally_exactly_one ps (write_outcomes tr) k Hlen Hk Honly)
      as (p & e & Hp & Ho & Ht).
    exists p, e. by rewrite Hres, Ht.
  - intros W env request form w c k Hf Hsort run Hk Honly.
    destruct (session_observed env request form w c Hf Hsort)
      as (Hreq & Hlen & _ & w' & stamp & _ & Hlast & Hres & _).
    fold run in Hreq, Hlen, Hlast, Hres.
    destruct (tally_exactly_one _ (write_outcomes (calls run.2)) k Hlen Hk Honly)
      as (p & e & Hp & Ho & Ht).
    exists p, e. split; [done|]. split; [done|]. split; [done|].
    intros b Hb. rewrite Hlast in Hb. injection Hb as ->.
    by rewrite Hres, Ht.
  - intros W env request form w c k Hf Hsort run Hk Honly.
    destruct (prototype_observed env request form w c Hf Hsort)
      as (Hreq & Hlen & _ & Hmut & Hres).
    fold run in Hreq, Hlen, Hmut, Hres.
    destruct (tally_exactly_one _ (write_outcomes (calls run.2)) k Hlen Hk Honly)
      as (p & e & Hp & Ho & Ht).
    exists p, e. by rewrite Hres, Ht.
Qed.

(** Checks "only the write at this index throws" on a concrete run. *)
Ltac only_thrown :=
  let j := fresh "j" in let o := fresh "o" in let Ho := fresh "Ho" in
  intros j o;
  do 4 (try destruct j as [|j]); vm_compute; intros Ho;
  try discriminate Ho; inversion Ho; subst;
  split; intros ?; try reflexivity; discriminate.

Lemma one_write_throws_rest_continue_witness :
  (∃ p e, [pA; pB; pC] !! 1 = Some p
     ∧ (rank_loop (Session.setProductMetafield shop_admin) "best-sellers"
          [pA; pB; pC] 0 results0 (init (demo_shop {[p_id pB]} ∅))).1
       = Normal {| success := 2; failed := 1;
                   errors := [{| productId := p_id p; title := p_title p;
                                 error := err_message e |}] |})
  ∧ (∃ p e, c_products best_sellers !! 1 = Some p
     ∧ (Session.action shop_env (render best_sellers)
          (init (demo_shop {[p_id pB]} ∅))).1
       = Normal (success_response
           {| success := 2; failed := 1;
              errors := [{| productId := p_id p; title := p_title p;
                            error := err_message e |}] |}))
  ∧ (∃ p e, c_products best_sellers !! 1 = Some p
     ∧ (Prototype.action shop_proc_env (render best_sellers)
          (init (demo_shop {[p_id pB]} ∅))).1
       = Normal (success_response
           {| success := 2; failed := 1;
              errors := [{| productId := p_id p; title := p_title p;
                            error := err_message e |}] |})).
Proof.
  split; [|split].
  - destruct (proj1 one_write_throws_rest_continue Shop shop_admin "best-sellers"
                [pA; pB; pC] (init (demo_shop {[p_id pB]} ∅)) 1)
      as (p & e & Hp & _ & _ & Hres); [simpl; lia | only_thrown |].
    exists p, e. split; [exact Hp | exact Hres].
  - destruct (proj1 (proj2 one_write_throws_rest_continue) Shop shop_env
                (render best_sellers)
                {| collectionId := c_id best_sellers;
                   collectionHandle := c_handle best_sellers |}
                (demo_shop {[p_id pB]} ∅) best_sellers 1)
      as (p & e & Hp & _ & _ & Hres);
      [fetches | reflexivity | simpl; lia | only_thrown |].
    exists p, e. split; [exact Hp|].
    apply (Hres {| body_data := Some (D_collectionUpdate []) |}).
    vm_compute. reflexivity.
  - destruct (proj2 (proj2 one_write_throws_rest_continue) Shop shop_proc_env
                (render best_sellers)
                {| collectionId := c_id best_sellers;
                   collectionHandle := c_handle best_sellers |}
                (demo_shop {[p_id pB]} ∅) best_sellers 1)
      as (p & e & Hp & _ & _ & Hres);
      [fetches | reflexivity | simpl; lia | only_thrown |].
    exists p, e. split; [exact Hp | exact Hres].
Defined.


(** * Failures of single writes *)

(** On the demo shop with product B rejected by validation, the answer to
    the write for B carries [userErrors], yet nothing is counted as failed. *)
Lemma validation_error_counted_as_success :
  let run := Session.action shop_env (render best_sellers)
               (init (demo_shop ∅ {[p_id pB]})) in
  write_outcomes (calls run.2) !! 1
    = Some (Normal {| body_data := Some (D_productUpdate [invalid_value]) |})
  ∧ productUpdate_userErrors {| body_data := Some (D_productUpdate [invalid_value]) |} ≠ []
  ∧ console run.2 !! 5
    = Some (LError, [AStr "Product metafield update userErrors:";
                     AUserErrors [invalid_value]])
  ∧ run.1 = Normal (success_response {| success := 3; failed := 0; errors := [] |}).
Proof. vm_compute. repeat split; try reflexivity. intros H. discriminate H. Qed.

(** C3, as amended: one iteration of the session handler's loop on product
    [p] at index [i].  If the round trip of its rank request throws [e], the
    iteration leaves [success] as it is, adds one to [failed], appends
    [{ productId, title, error: e.message }] to [errors] and the loop goes on
    with the remaining products.  If the round trip completes normally with
    any body, also one that carries [userErrors], the iteration adds one to
    [success] and records no diagnostic. *)
Theorem thrown_write_is_recorded :
  ∀ W (admin : Admin W) handle p rest i r s,
    (∀ e w', admin_graphql admin (rank_request handle i p) (world s) = (Thrown e, w') →
       ∃ s', world s' = w'
         ∧ calls s' = calls s ++ [{| call_req := rank_request handle i p;
                                     call_out := Thrown e |}]
         ∧ rank_loop (Session.setProductMetafield admin) handle (p :: rest) i r s
           = rank_loop (Session.setProductMetafield admin) handle rest (S i)
               {| success := success r; failed := S (failed r);
                  errors := errors r ++ [{| productId := p_id p; title := p_title p;
                                            error := err_message e |}] |} s')
    ∧ (∀ b w', admin_graphql admin (rank_request handle i p) (world s) = (Normal b, w') →
       ∃ s', world s' = w'
         ∧ calls s' = calls s ++ [{| call_req := rank_request handle i p;
                                     call_out := Normal b |}]
         ∧ rank_loop (Session.setProductMetafield admin) handle (p :: rest) i r s
           = rank_loop (Session.setProductMetafield admin) handle rest (S i)
               {| success := S (success r); failed := failed r; errors := errors r |} s').
Proof.
  intros W admin handle p rest i r s. split.
  - intros e w' Hstep. eexists. split; [|split]; cycle 2.
    + cbn [rank_loop]. unfold bind at 1, try_catch, bind at 1, console_put at 1.
      unfold bind at 1, Session.setProductMetafield, bind at 1, Session.graphql,
        round_trip. cbn [world calls console].
      unfold rank_request, rank_metafield in Hstep. unfold rank_metafield.
      rewrite Hstep. unfold bind at 1, console_put, ret. reflexivity.
    + reflexivity.
    + reflexivity.
  - intros b w' Hstep.
    cbn [rank_loop]. unfold bind at 1, try_catch, bind at 1, console_put at 1.
    unfold bind at 1, Session.setProductMetafield, bind at 1, Session.graphql,
      round_trip. cbn [world calls console].
    unfold rank_request, rank_metafield in Hstep. unfold rank_metafield.
    rewrite Hstep. unfold bind at 1.
    destruct (productUpdate_userErrors b); unfold console_put, ret;
      eexists; (split; [|split]; [idtac | idtac | reflexivity]); reflexivity.
Qed.

Lemma thrown_write_is_recorded_witness :
  let sh := demo_shop {[p_id pB]} ∅ in
  let r := {| success := 1; failed := 0; errors := [] |} in
  ∃ s', world s' = sh
    ∧ calls s' = [{| call_req := rank_request "best-sellers" 1 pB;
                     call_out := Thrown transport_error |}]
    ∧ rank_loop (Session.setProductMetafield shop_admin) "best-sellers" [pB; pC] 1 r (init sh)
      = rank_loop (Session.setProductMetafield shop_admin) "best-sellers" [pC] 2
          {| success := 1; failed := 1;
             errors := [{| productId := p_id pB; title := "B";
                           error := Some "fetch failed" |}] |} s'.
Proof.
  intros sh r.
  apply (proj1 (thrown_write_is_recorded Shop shop_admin "best-sellers" pB [pC] 1 r
                  (init sh)) transport_error sh).
  vm_compute. reflexivity.
Defined.


(** * Running twice *)

(** C6: two runs in succession, the second starting in the world the first
    one left, whose collection queries return the same product list, issue
    the same product mutations: for each product the same metafield key and
    the same value, whatever the outcome of the single writes. *)
Theorem rerun_same_ranks :
  (∀ W (env : Env W) request form w c1 c2,
     session_fetches env request form w (Some c1) → c_sortOrder c1 = "MANUAL" →
     let first := Session.action env request (init w) in
     session_fetches env request form (world first.2) (Some c2) →
     c_sortOrder c2 = "MANUAL" →
     c_products c1 = c_products c2 →
     let second := Session.action env request (init (world first.2)) in
     write_requests (calls second.2) = write_requests (calls first.2)
     ∧ write_requests (calls first.2)
       = imap (λ i p, ProductUpdate (p_id p)
                        [{| mf_namespace := "custom";
                            mf_key := collectionHandle form +:+ "_rank";
                            mf_type := "number_integer"; mf_value := pretty (i + 1) |}])
           (c_products c1))
  ∧ (∀ W (env : ProcEnv W) request form w c1 c2,
     prototype_fetches env request form w (Some c1) → c_sortOrder c1 = "MANUAL" →
     let first := Prototype.action env request (init w) in
     prototype_fetches env request form (world first.2) (Some c2) →
     c_sortOrder c2 = "MANUAL" →
     c_products c1 = c_products c2 →
     let second := Prototype.action env request (init (world first.2)) in
     write_requests (calls second.2) = write_requests (calls first.2)
     ∧ write_requests (calls first.2)
       = imap (λ i p, ProductUpdate (p_id p)
                        [{| mf_namespace := "custom";
                            mf_key := collectionHandle form +:+ "_rank";
                            mf_type := "number_integer"; mf_value := pretty (i + 1) |}])
           (c_products c1)).
Proof.
  split; intros W env request form w c1 c2 Hf1 Hs1 first Hf2 Hs2 Hsame second.
  - destruct (session_observed env request form w c1 Hf1 Hs1) as (Hreq1 & _).
    destruct (session_observed env request form _ c2 Hf2 Hs2) as (Hreq2 & _).
    fold first in Hreq1. fold second in Hreq2.
    rewrite Hreq1, Hreq2, Hsame, rank_requests_explicit. done.
  - destruct (prototype_observed env request form w c1 Hf1 Hs1) as (Hreq1 & _).
    destruct (prototype_observed env request form _ c2 Hf2 Hs2) as (Hreq2 & _).
    fold first in Hreq1. fold second in Hreq2.
    rewrite Hreq1, Hreq2, Hsame, rank_requests_explicit. done.
Qed.

Lemma rerun_same_ranks_witness :
  let sh := demo_shop {[p_id pB]} ∅ in
  let first := Session.action shop_env (render best_sellers) (init sh) in
  let first' := Prototype.action shop_proc_env (render best_sellers) (init sh) in
  write_requests (calls (Session.action shop_env (render best_sellers)
                           (init (world first.2))).2)
    = write_requests (calls first.2)
  ∧ write_requests (calls (Prototype.action shop_proc_env (render best_sellers)
                             (init (world first'.2))).2)
    = write_requests (calls first'.2).
Proof.
  intros sh first first'. split.
  - refine (proj1 (proj1 rerun_same_ranks Shop shop_env (render best_sellers)
                     {| collectionId := c_id best_sellers;
                        collectionHandle := c_handle best_sellers |}
                     sh best_sellers best_sellers _ _ _ _ _));
      [fetches | reflexivity | fetches | reflexivity | reflexivity].
  - refine (proj1 (proj2 rerun_same_ranks Shop shop_proc_env (render best_sellers)
                     {| collectionId := c_id best_sellers;
                        collectionHandle := c_handle best_sellers |}
                     sh best_sellers best_sellers _ _ _ _ _));
      [fetches | reflexivity | fetches | reflexivity | reflexivity].
Defined.


(** * After the loop *)




(** * The page bound *)

Lemma shop_session_fetches sh request form :
  formData request = Normal form →
  session_fetches shop_env request form sh
    (shop_page 100 <$> shop_collections sh !! collectionId form).
Proof. intros Hform. split; [done|]. by do 4 eexists. Qed.

Lemma shop_prototype_fetches sh request form :
  formData request = Normal form →
  prototype_fetches shop_proc_env request form sh
    (shop_page 100 <$> shop_collections sh !! collectionId form).
Proof. intros Hform. split; [done|]. by do 4 eexists. Qed.

Lemma product_update_in_writes tr id mfs :
  ProductUpdate id mfs ∈ call_req <$> tr → ProductUpdate id mfs ∈ write_requests tr.
Proof.
  intros (c & Hc & Hin)%list_elem_of_fmap.
  apply list_elem_of_fmap. exists c. split; [done|].
  apply list_elem_of_filter. split; [|done]. by rewrite <- Hc.
Qed.

Lemma rank_requests_targets handle i ps id mfs :
  ProductUpdate id mfs ∈ rank_requests handle i ps → id ∈ p_id <$> ps.
Proof.
  unfold rank_requests. intros (j & p & Heq & Hp)%elem_of_lookup_imap.
  injection Heq as -> _. apply list_elem_of_fmap. exists p. split; [done|].
  apply list_elem_of_lookup. by exists j.
Qed.

(** C7: the collection query asks for [first: 100] members.  On the
    reference platform, which answers with the first [first] members of the
    manual order, a run on a manually sorted collection sends the rank
    requests of the first 100 members only: [min 100 N] product mutations, and
    no product mutation for a member at index 100 or beyond (whose
    identifier is not also among the first 100). *)
Theorem only_first_page_ranked :
  (∀ (sh : Shop) request form c,
     formData request = Normal form →
     shop_collections sh !! collectionId form = Some c → c_sortOrder c = "MANUAL" →
     let run := Session.action shop_env request (init sh) in
     head (call_req <$> calls run.2)
       = Some (GetCollection (collectionId form) 100 "MANUAL")
     ∧ write_requests (calls run.2)
       = rank_requests (collectionHandle form) 0 (take 100 (c_products c))
     ∧ length (write_requests (calls run.2)) = 100 `min` length (c_products c)
     ∧ ∀ j p, 100 ≤ j → c_products c !! j = Some p →
         p_id p ∉ p_id <$> take 100 (c_products c) →
         ∀ mfs, ProductUpdate (p_id p) mfs ∉ call_req <$> calls run.2)
  ∧ (∀ (sh : Shop) request form c,
     formData request = Normal form →
     shop_collections sh !! collectionId form = Some c → c_sortOrder c = "MANUAL" →
     let run := Prototype.action shop_proc_env request (init sh) in
     head (call_req <$> calls run.2)
       = Some (GetCollection (collectionId form) 100 "MANUAL")
     ∧ write_requests (calls run.2)
       = rank_requests (collectionHandle form) 0 (take 100 (c_products c))
     ∧ length (write_requests (calls run.2)) = 100 `min` length (c_products c)
     ∧ ∀ j p, 100 ≤ j → c_products c !! j = Some p →
         p_id p ∉ p_id <$> take 100 (c_products c) →
         ∀ mfs, ProductUpdate (p_id p) mfs ∉ call_req <$> calls run.2).
Proof.
  split; intros sh request form c Hform Hc Hsort run.
  - pose proof (shop_session_fetches sh request form Hform) as Hf.
    rewrite Hc in Hf. cbn [fmap option_fmap option_map] in Hf.
    destruct (session_observed shop_env request form sh _ Hf Hsort)
      as (Hreq & _ & Hhead & _).
    fold run in Hreq, Hhead. cbn [shop_page c_products] in Hreq.
    split; [done|]. split; [done|]. split.
    + by rewrite Hreq, rank_requests_length, length_take.
    + intros j p _ _ Hnot mfs Hin%product_update_in_writes.
      rewrite Hreq in Hin. by apply rank_requests_targets in Hin.
  - pose proof (shop_prototype_fetches sh request form Hform) as Hf.
    rewrite Hc in Hf. cbn [fmap option_fmap option_map] in Hf.
    destruct (prototype_observed shop_proc_env request form sh _ Hf Hsort)
      as (Hreq & _ & Hhead & _).
    fold run in Hreq, Hhead. cbn [shop_page c_products] in Hreq.
    split; [done|]. split; [done|]. split.
    + by rewrite Hreq, rank_requests_length, length_take.
    + intros j p _ _ Hnot mfs Hin%product_update_in_writes.
      rewrite Hreq in Hin. by apply rank_requests_targets in Hin.
Qed.

Lemma only_first_page_ranked_witness :
  (length (write_requests (calls (Session.action shop_env (render catalogue)
                                    (init big_shop)).2)) = 100
   ∧ ∀ mfs, ProductUpdate (p_id (numbered 100)) mfs
        ∉ call_req <$> calls (Session.action shop_env (render catalogue)
                                (init big_shop)).2)
  ∧ (length (write_requests (calls (Prototype.action shop_proc_env (render catalogue)
                                      (init big_shop)).2)) = 100
   ∧ ∀ mfs, ProductUpdate (p_id (numbered 100)) mfs
        ∉ call_req <$> calls (Prototype.action shop_proc_env (render catalogue)
                                (init big_shop)).2).
Proof.
  split.
  - destruct (proj1 only_first_page_ranked big_shop (render catalogue)
                {| collectionId := c_id catalogue; collectionHandle := c_handle catalogue |}
                catalogue eq_refl)
      as (_ & _ & Hlen & Hno); [vm_compute; reflexivity | reflexivity |].
    split; [exact Hlen|].
    apply (Hno 100 (numbered 100)); [lia | vm_compute; reflexivity |].
    refine (bool_decide_unpack _ _). vm_compute. exact I.
  - destruct (proj2 only_first_page_ranked big_shop (render catalogue)
                {| collectionId := c_id catalogue; collectionHandle := c_handle catalogue |}
                catalogue eq_refl)
      as (_ & _ & Hlen & Hno); [vm_compute; reflexivity | reflexivity |].
    split; [exact Hlen|].
    apply (Hno 100 (numbered 100)); [lia | vm_compute; reflexivity |].
    refine (bool_decide_unpack _ _). vm_compute. exact I.
Defined.


(** * What the caller gets once both guards have passed *)





(** * The shape of the success response *)

(** On the demo shop where every update fails in transport, both guards
    pass, all three product writes fail, and the response of the session
    handler is an error with status 500: it carries no success flag. *)
Lemma all_fail_then_stamp_fails :
  let sh := demo_shop {[p_id pA; p_id pB; p_id pC; c_id best_sellers]} ∅ in
  let form := {| collectionId := c_id best_sellers;
                 collectionHandle := c_handle best_sellers |} in
  let run := Session.action shop_env (render best_sellers) (init sh) in
  session_fetches shop_env (render best_sellers) form sh (Some best_sellers)
  ∧ c_sortOrder best_sellers = "MANUAL"
  ∧ is_thrown <$> write_outcomes (calls run.2) = [true; true; true]
  ∧ run.1 = Normal {| status := 500; body := ErrorBody "fetch failed" |}
  ∧ ∀ flag results message, run.1 ≠ Normal {| status := 200;
                                             body := SuccessBody flag results message |}.
Proof.
  intros sh form run. split; [fetches|]. vm_compute.
  repeat split; try reflexivity. intros flag results message H. discriminate H.
Qed.

Lemma summary_shape results :
  (failed results = 0 →
   summary results = "Successfully updated " +:+ pretty (success results) +:+ " products")
  ∧ (0 < failed results →
     summary results = "Successfully updated " +:+ pretty (success results) +:+
                       " products, " +:+ pretty (failed results) +:+ " failed").
Proof.
  unfold summary. split; intros Hf.
  - rewrite bool_decide_eq_false_2 by lia.
    induction ("Successfully updated " +:+ pretty (success results)) as [|a s IH];
      [done|]. simpl. by rewrite <- IH.
  - rewrite bool_decide_eq_true_2 by lia.
    generalize (pretty (failed results) +:+ " failed"). intros t.
    induction ("Successfully updated " +:+ pretty (success results)) as [|a s IH];
      [done|]. simpl. by rewrite <- IH.
Qed.

(** C10, as amended: whenever both guards pass and, in the session handler,
    the closing [collectionUpdate] completes normally, the response has
    status 200 and carries [success: true] whatever the number of failed
    product writes, with [success + failed] equal to the number of products
    fetched and [errors.length = failed]; its message is
    "Successfully updated <success> products", followed by
    ", <failed> failed" exactly when [failed] is positive. *)
Theorem success_flag_regardless :
  (∀ W (env : ProcEnv W) request form w c,
     prototype_fetches env request form w (Some c) → c_sortOrder c = "MANUAL" →
     ∃ results,
       (Prototype.action env request (init w)).1
         = Normal {| status := 200;
                     body := SuccessBody true results (summary results) |}
       ∧ success results + failed results = length (c_products c)
       ∧ length (errors results) = failed results)
  ∧ (∀ W (env : Env W) request form w c b,
     session_fetches env request form w (Some c) → c_sortOrder c = "MANUAL" →
     last_outcome (calls (Session.action env request (init w)).2) = Some (Normal b) →
     ∃ results,
       (Session.action env request (init w)).1
         = Normal {| status := 200;
                     body := SuccessBody true results (summary results) |}
       ∧ success results + failed results = length (c_products c)
       ∧ length (errors results) = failed results)
  ∧ (∀ results,
     (failed results = 0 →
      summary results
      = "Successfully updated " +:+ pretty (success results) +:+ " products")
     ∧ (0 < failed results →
        summary results
        = "Successfully updated " +:+ pretty (success results) +:+
          " products, " +:+ pretty (failed results) +:+ " failed")).
Proof.
  split; [|split].
  - intros W env request form w c Hf Hsort.
    destruct (prototype_observed env request form w c Hf Hsort)
      as (_ & Hlen & _ & _ & Hres).
    eexists. split; [exact Hres|].
    destruct (tally_counts (zip (c_products c)
      (write_outcomes (calls (Prototype.action env request (init w)).2)))) as [Hsum Herr].
    rewrite length_zip, Hlen, Nat.min_id in Hsum. done.
  - intros W env request form w c b Hf Hsort Hb.
    destruct (session_observed env request form w c Hf Hsort)
      as (_ & Hlen & _ & w' & stamp & _ & Hlast & Hres & _).
    rewrite Hlast in Hb. injection Hb as ->.
    eexists. split; [exact Hres|].
    destruct (tally_counts (zip (c_products c)
      (write_outcomes (calls (Session.action env request (init w)).2)))) as [Hsum Herr].
    rewrite length_zip, Hlen, Nat.min_id in Hsum. done.
  - apply summary_shape.
Qed.

Lemma success_flag_regardless_witness :
  let form := {| collectionId := c_id best_sellers;
                 collectionHandle := c_handle best_sellers |} in
  let sh := demo_shop {[p_id pA; p_id pB; p_id pC]} ∅ in
  (∃ results,
     (Prototype.action shop_proc_env (render best_sellers) (init sh)).1
       = Normal {| status := 200; body := SuccessBody true results (summary results) |}
     ∧ success results + failed results = 3
     ∧ length (errors results) = failed results)
  ∧ (∃ results,
     (Session.action shop_env (render best_sellers) (init sh)).1
       = Normal {| status := 200; body := SuccessBody true results (summary results) |}
     ∧ success results + failed results = 3
     ∧ length (errors results) = failed results)
  ∧ summary {| success := 0; failed := 3; errors := [] |}
    = "Successfully updated 0 products, 3 failed".
Proof.
  intros form sh.
  destruct success_flag_regardless as (Hproto & Hsess & Hmsg).
  split; [|split].
  - apply (Hproto Shop shop_proc_env (render best_sellers) form sh best_sellers);
      [fetches | reflexivity].
  - apply (Hsess Shop shop_env (render best_sellers) form sh best_sellers
             {| body_data := Some (D_collectionUpdate []) |});
      [fetches | reflexivity | vm_compute; reflexivity].
  - apply (proj2 (Hmsg {| success := 0; failed := 3; errors := [] |})).
    simpl. lia.
Defined.


(** * Further properties of the two handlers *)


Lemma prototype_form_outcomes :
  ∀ W (env : ProcEnv W) request (s : State W),
    (∀ e, formData request = Thrown e →
       Prototype.action env request s = (Thrown e, s))
    ∧ (∀ form, formData request = Normal form →
       ∃ response, (Prototype.action env request s).1 = Normal response).
Proof.
  intros W env request s. split.
  - intros e He. unfold Prototype.action, bind at 1, await. by rewrite He.
  - intros form Hform. unfold Prototype.action, bind at 1, await. rewrite Hform.
    destruct (truthy (SHOPIFY_SHOP env)) as [shop|]; [|by eexists].
    destruct (truthy (SHOPIFY_ACCESS_TOKEN env)) as [tok|]; [|by eexists].
    unfold try_catch.
    match goal with |- context [match ?m ?st with _ => _ end] =>
      destruct (m st) as [[resp|e] s'] end.
    + by exists resp.
    + exists (Prototype.error_response e). reflexivity.
Qed.


(** The prototype handler reads the form outside its [try]: it rejects
    exactly when [request.formData()] rejects, with that error and before
    anything is logged or sent; in every other case it completes with a
    response. *)
Theorem prototype_action_throws_only_on_form :
  ∀ W (env : ProcEnv W) request (s : State W),
    (∀ e, formData request = Thrown e →
       Prototype.action env request s = (Thrown e, s))
    ∧ (∀ form, formData request = Normal form →
       ∃ response, (Prototype.action env request s).1 = Normal response).
Proof. exact prototype_form_outcomes. Qed.

Lemma prototype_action_throws_only_on_form_witness :
  let request := {| url := "https://app.example/app";
                    formData := Thrown {| err_status := None;
                                          err_message := Some "body used already" |} |} in
  Prototype.action shop_proc_env request (init (demo_shop ∅ ∅))
    = (Thrown {| err_status := None; err_message := Some "body used already" |},
       init (demo_shop ∅ ∅))
  ∧ ∃ response,
      (Prototype.action shop_proc_env (render best_sellers) (init (demo_shop ∅ ∅))).1
      = Normal response.
Proof.
  intros request. split.
  - apply (proj1 (prototype_action_throws_only_on_form Shop shop_proc_env request
                    (init (demo_shop ∅ ∅)))). reflexivity.
  - apply (proj2 (prototype_action_throws_only_on_form Shop shop_proc_env
                    (render best_sellers) (init (demo_shop ∅ ∅)))
             {| collectionId := c_id best_sellers;
                collectionHandle := c_handle best_sellers |}). reflexivity.
Defined.

Lemma session_before_query :
  ∀ W (env : Env W) request (w : W),
    (∀ e w1, authenticate_admin env request w = (Thrown e, w1) →
       (Session.action env request (init w)).1 = Normal (Session.error_response e)
       ∧ calls (Session.action env request (init w)).2 = [])
    ∧ (∀ admin e w1, authenticate_admin env request w = (Normal admin, w1) →
       formData request = Thrown e →
       (Session.action env request (init w)).1 = Normal (Session.error_response e)
       ∧ calls (Session.action env request (init w)).2 = [])
    ∧ (∀ form w1, authenticate_admin env request w = (Normal None, w1) →
       formData request = Normal form →
       (Session.action env request (init w)).1
         = Normal {| status := 401; body := ErrorBody "Authentication required" |}
       ∧ calls (Session.action env request (init w)).2 = []).
Proof.
  intros W env request w. split; [|split].
  - intros e w1 Hauth.
    unfold Session.action, bind, try_catch, console_put, init. cbn.
    by rewrite Hauth.
  - intros admin e w1 Hauth Hform.
    unfold Session.action, bind, try_catch, console_put, await, init. cbn.
    by rewrite Hauth, Hform.
  - intros form w1 Hauth Hform.
    unfold Session.action, bind, try_catch, console_put, await, init. cbn.
    by rewrite Hauth, Hform.
Qed.

(** The session handler before its query: an exception of
    [authenticate.admin] or of [request.formData()] is answered with the error
    response of the outer [catch], and a session without [admin] with status
    401 "Authentication required"; in all three cases no request at all has
    been sent to the platform.  The form is read before [admin] is looked
    at, so its exception wins over a missing [admin]. *)
Theorem session_rejected_before_query :
  ∀ W (env : Env W) request (w : W),
    (∀ e w1, authenticate_admin env request w = (Thrown e, w1) →
       (Session.action env request (init w)).1 = Normal (Session.error_response e)
       ∧ calls (Session.action env request (init w)).2 = [])
    ∧ (∀ admin e w1, authenticate_admin env request w = (Normal admin, w1) →
       formData request = Thrown e →
       (Session.action env request (init w)).1 = Normal (Session.error_response e)
       ∧ calls (Session.action env request (init w)).2 = [])
    ∧ (∀ form w1, authenticate_admin env request w = (Normal None, w1) →
       formData request = Normal form →
       (Session.action env request (init w)).1
         = Normal {| status := 401; body := ErrorBody "Authentication required" |}
       ∧ calls (Session.action env request (init w)).2 = []).
Proof. exact session_before_query. Qed.

(** The prototype handler without credentials: when [SHOPIFY_SHOP] or
    [SHOPIFY_ACCESS_TOKEN] is unset or empty, the response is status 401
    "Missing shop or access token" and nothing is sent or logged. *)
Theorem prototype_missing_credentials :
  ∀ W (env : ProcEnv W) request form (s : State W),
    formData request = Normal form →
    SHOPIFY_SHOP env = None ∨ SHOPIFY_SHOP env = Some ""
    ∨ SHOPIFY_ACCESS_TOKEN env = None ∨ SHOPIFY_ACCESS_TOKEN env = Some "" →
    Prototype.action env request s
      = (Normal {| status := 401; body := ErrorBody "Missing shop or access token" |}, s).
Proof.
  intros W env request form s Hform Hmissing.
  unfold Prototype.action, bind at 1, await. rewrite Hform.
  destruct Hmissing as [H|[H|[H|H]]]; rewrite H; cbn;
    try done; by destruct (truthy (SHOPIFY_SHOP env)).
Qed.

Lemma session_rejected_before_query_witness :
  ((Session.action expired_env (render best_sellers) (init (demo_shop ∅ ∅))).1
     = Normal {| status := 401;
                 body := ErrorBody "Session expired. Please refresh the page." |}
   ∧ calls (Session.action expired_env (render best_sellers) (init (demo_shop ∅ ∅))).2 = [])
  ∧ ((Session.action anonymous_env unreadable (init (demo_shop ∅ ∅))).1
     = Normal {| status := 500;
                 body := ErrorBody "Could not parse content as FormData." |}
   ∧ calls (Session.action anonymous_env unreadable (init (demo_shop ∅ ∅))).2 = [])
  ∧ ((Session.action anonymous_env (render best_sellers) (init (demo_shop ∅ ∅))).1
     = Normal {| status := 401; body := ErrorBody "Authentication required" |}
   ∧ calls (Session.action anonymous_env (render best_sellers) (init (demo_shop ∅ ∅))).2 = []).
Proof.
  split; [|split].
  - apply (proj1 (session_rejected_before_query Shop expired_env (render best_sellers)
                    (demo_shop ∅ ∅))
             {| err_status := Some 401; err_message := None |} (demo_shop ∅ ∅)).
    reflexivity.
  - apply (proj1 (proj2 (session_rejected_before_query Shop anonymous_env unreadable
                           (demo_shop ∅ ∅)))
             None
             {| err_status := None;
                err_message := Some "Could not parse content as FormData." |}
             (demo_shop ∅ ∅)); reflexivity.
  - apply (proj2 (proj2 (session_rejected_before_query Shop anonymous_env
                           (render best_sellers) (demo_shop ∅ ∅)))
             {| collectionId := c_id best_sellers;
                collectionHandle := c_handle best_sellers |}
             (demo_shop ∅ ∅)); reflexivity.
Defined.

Lemma prototype_missing_credentials_witness :
  Prototype.action tokenless_proc_env (render best_sellers) (init (demo_shop ∅ ∅))
    = (Normal {| status := 401; body := ErrorBody "Missing shop or access token" |},
       init (demo_shop ∅ ∅)).
Proof.
  apply (prototype_missing_credentials Shop tokenless_proc_env (render best_sellers)
           {| collectionId := c_id best_sellers;
              collectionHandle := c_handle best_sellers |}
           (init (demo_shop ∅ ∅))); [reflexivity|].
  right. right. right. reflexivity.
Defined.

(** A mutation is sent only past both guards: in any run of either handler
    whose trace contains a mutation, the collection query had completed with
    a collection whose [sortOrder] is ["MANUAL"]. *)
Theorem mutations_only_past_guards :
  (∀ W (env : Env W) request (w : W),
     mutations (calls (Session.action env request (init w)).2) ≠ [] →
     ∃ form c, session_fetches env request form w (Some c)
               ∧ c_sortOrder c = "MANUAL")
  ∧ (∀ W (env : ProcEnv W) request (w : W),
     mutations (calls (Prototype.action env request (init w)).2) ≠ [] →
     ∃ form c, prototype_fetches env request form w (Some c)
               ∧ c_sortOrder c = "MANUAL").
Proof.
  split.
  - intros W env request w Hmut.
    destruct (authenticate_admin env request w) as [[auth|e] w1] eqn:Hauth.
    2:{ destruct Hmut.
        by rewrite (proj2 (proj1 (session_before_query W env request w) e w1 Hauth)). }
    destruct (formData request) as [form|e] eqn:Hform.
    2:{ destruct Hmut.
        by rewrite (proj2 (proj1 (proj2 (session_before_query W env request w))
                             auth e w1 Hauth Hform)). }
    destruct auth as [admin|].
    2:{ destruct Hmut.
        by rewrite (proj2 (proj2 (proj2 (session_before_query W env request w))
                             form w1 Hauth Hform)). }
    destruct (admin_graphql admin (GetCollection (collectionId form) 100 "MANUAL") w1)
      as [[b|e] w2] eqn:Hfetch.
    2:{ destruct Hmut.
        apply (session_fetch_thrown env request form w admin w1 e w2 Hform Hauth Hfetch). }
    assert (session_fetches env request form w (data_collection (body_data b))) as Hf.
    { split; [done|]. by exists admin, w1, b, w2. }
    destruct (data_collection (body_data b)) as [c|].
    2:{ destruct Hmut. eapply query_only_no_mutation.
        apply (session_not_found env request form w Hf). }
    destruct (decide (c_sortOrder c = "MANUAL")) as [Hsort|Hsort].
    + by exists form, c.
    + destruct Hmut. eapply query_only_no_mutation.
      apply (session_invalid_state env request form w c Hf Hsort).
  - intros W env request w Hmut.
    destruct (formData request) as [form|e] eqn:Hform.
    2:{ destruct Hmut.
        by rewrite (proj1 (prototype_form_outcomes W env request (init w))
                      e Hform). }
    destruct (truthy (SHOPIFY_SHOP env)) as [shop|] eqn:Hshop.
    2:{ destruct Hmut. unfold Prototype.action, bind at 1, await.
        by rewrite Hform, Hshop. }
    destruct (truthy (SHOPIFY_ACCESS_TOKEN env)) as [tok|] eqn:Htok.
    2:{ destruct Hmut. unfold Prototype.action, bind at 1, await.
        by rewrite Hform, Hshop, Htok. }
    destruct (fetch env shop tok (GetCollection (collectionId form) 100 "MANUAL") w)
      as [[b|e] w1] eqn:Hfetch.
    2:{ destruct Hmut.
        apply (prototype_fetch_thrown env request form w shop tok e w1
                 Hform Hshop Htok Hfetch). }
    assert (prototype_fetches env request form w (data_collection (body_data b))) as Hf.
    { split; [done|]. by exists shop, tok, b, w1. }
    destruct (data_collection (body_data b)) as [c|].
    2:{ destruct Hmut. eapply query_only_no_mutation.
        apply (prototype_not_found env request form w Hf). }
    destruct (decide (c_sortOrder c = "MANUAL")) as [Hsort|Hsort].
    + by exists form, c.
    + destruct Hmut. eapply query_only_no_mutation.
      apply (prototype_invalid_state env request form w c Hf Hsort).
Qed.

Lemma mutations_only_past_guards_witness :
  (∃ form c, session_fetches shop_env (render best_sellers) form (demo_shop ∅ ∅) (Some c)
             ∧ c_sortOrder c = "MANUAL")
  ∧ (∃ form c, prototype_fetches shop_proc_env (render best_sellers) form
                 (demo_shop ∅ ∅) (Some c)
               ∧ c_sortOrder c = "MANUAL").
Proof.
  split.
  - apply (proj1 mutations_only_past_guards Shop shop_env (render best_sellers)
             (demo_shop ∅ ∅)).
    vm_compute. discriminate.
  - apply (proj2 mutations_only_past_guards Shop shop_proc_env (render best_sellers)
             (demo_shop ∅ ∅)).
    vm_compute. discriminate.
Defined.



Lemma tally_by_outcome ps outs :
  length outs = length ps →
  foldl tally results0 (zip ps outs) =
    {| success := length (filter (λ o, is_thrown o = false) outs);
       failed := length (filter (λ o, is_thrown o = true) outs);
       errors := omap diagnostic (zip ps outs) |}.
Proof.
  intros Hlen. rewrite tally_foldl. cbn [results0 success failed errors app].
  revert outs Hlen. induction ps as [|p ps IH]; intros [|o outs] Hlen;
    try discriminate Hlen; [done|].
  injection Hlen as Hlen. specialize (IH outs Hlen). injection IH as IH1 IH2.
  cbn [zip zip_with].
  change (omap diagnostic ((p, o) :: zip ps outs))
    with (match diagnostic (p, o) with
          | Some d => d :: omap diagnostic (zip ps outs)
          | None => omap diagnostic (zip ps outs)
          end).
  destruct o as [b|e].
  - rewrite !filter_cons_True by done.
    rewrite filter_cons_False by (simpl; congruence).
    cbn. f_equal; [by f_equal | done].
  - rewrite !filter_cons_False by (simpl; congruence).
    rewrite filter_cons_True by done.
    cbn. f_equal; [done | by f_equal].
Qed.

(** Any pattern of failures is tallied faithfully: past both guards (and,
    in the session handler, when the closing call completes normally) the
    result returned has [success] equal to the number of product writes that
    completed normally, [failed] equal to the number that threw, and
    [errors] holding one record per thrown write, in product order, with
    that product's identifier and title and the error's message. *)
Theorem any_failures_tallied :
  (∀ W (env : ProcEnv W) request form w c,
     prototype_fetches env request form w (Some c) → c_sortOrder c = "MANUAL" →
     ∃ results,
       (Prototype.action env request (init w)).1 = Normal (success_response results)
       ∧ success results
         = length (filter (λ o, is_thrown o = false)
                     (write_outcomes (calls (Prototype.action env request (init w)).2)))
       ∧ failed results
         = length (filter (λ o, is_thrown o = true)
                     (write_outcomes (calls (Prototype.action env request (init w)).2)))
       ∧ errors results
         = omap (M:=list) (λ po : Product * completion Body, match po.2 with
                       | Thrown e => Some {| productId := p_id po.1;
                                             title := p_title po.1;
                                             error := err_message e |}
                       | Normal _ => None
                       end)
             (zip (c_products c)
                (write_outcomes (calls (Prototype.action env request (init w)).2))))
  ∧ (∀ W (env : Env W) request form w c b,
     session_fetches env request form w (Some c) → c_sortOrder c = "MANUAL" →
     last_outcome (calls (Session.action env request (init w)).2) = Some (Normal b) →
     ∃ results,
       (Session.action env request (init w)).1 = Normal (success_response results)
       ∧ success results
         = length (filter (λ o, is_thrown o = false)
                     (write_outcomes (calls (Session.action env request (init w)).2)))
       ∧ failed results
         = length (filter (λ o, is_thrown o = true)
                     (write_outcomes (calls (Session.action env request (init w)).2)))
       ∧ errors results
         = omap (M:=list) (λ po : Product * completion Body, match po.2 with
                       | Thrown e => Some {| productId := p_id po.1;
                                             title := p_title po.1;
                                             error := err_message e |}
                       | Normal _ => None
                       end)
             (zip (c_products c)
                (write_outcomes (calls (Session.action env request (init w)).2)))).
Proof.
  assert (∀ pos, omap (M:=list) diagnostic pos
            = omap (M:=list) (λ po : Product * completion Body,
                      match po.2 with
                      | Thrown e => Some {| productId := p_id po.1;
                                            title := p_title po.1;
                                            error := err_message e |}
                      | Normal _ => None
                      end) pos) as Hdiag.
  { intros pos. induction pos as [|[p [b|e]] pos IH]; [done| |]; cbn;
      change (list_omap _ _ ?f ?l) with (omap (M:=list) f l); by rewrite IH. }
  split.
  - intros W env request form w c Hf Hsort.
    destruct (prototype_observed env request form w c Hf Hsort)
      as (_ & Hlen & _ & _ & Hres).
    eexists. split; [exact Hres|]. rewrite tally_by_outcome by done.
    cbn [success failed errors]. by rewrite Hdiag.
  - intros W env request form w c b Hf Hsort Hb.
    destruct (session_observed env request form w c Hf Hsort)
      as (_ & Hlen & _ & w' & stamp & _ & Hlast & Hres & _).
    rewrite Hlast in Hb. injection Hb as ->.
    eexists. split; [exact Hres|]. rewrite tally_by_outcome by done.
    cbn [success failed errors]. by rewrite Hdiag.
Qed.

Lemma any_failures_tallied_witness :
  let sh := demo_shop {[p_id pA; p_id pC]} ∅ in
  (∃ results,
     (Prototype.action shop_proc_env (render best_sellers) (init sh)).1
       = Normal (success_response results)
     ∧ success results
       = length (filter (λ o, is_thrown o = false)
                   (write_outcomes
                      (calls (Prototype.action shop_proc_env (render best_sellers)
                                (init sh)).2))))
  ∧ (∃ results,
     (Session.action shop_env (render best_sellers) (init sh)).1
       = Normal (success_response results)
     ∧ failed results
       = length (filter (λ o, is_thrown o = true)
                   (write_outcomes
                      (calls (Session.action shop_env (render best_sellers)
                                (init sh)).2)))).
Proof.
  intros sh. split.
  - destruct (proj1 any_failures_tallied Shop shop_proc_env (render best_sellers)
                {| collectionId := c_id best_sellers;
                   collectionHandle := c_handle best_sellers |} sh best_sellers)
      as (results & Hres & Hs & _); [fetches | reflexivity |].
    exists results. split; [exact Hres | exact Hs].
  - destruct (proj2 any_failures_tallied Shop shop_env (render best_sellers)
                {| collectionId := c_id best_sellers;
                   collectionHandle := c_handle best_sellers |} sh best_sellers
                {| body_data := Some (D_collectionUpdate []) |})
      as (results & Hres & _ & Hf & _);
      [fetches | reflexivity | vm_compute; reflexivity |].
    exists results. split; [exact Hres | exact Hf].
Defined.


(** * The entrypoint scripts *)

(** Proof steps for the scripts: unfold a run and try every answer the
    operating system can give. *)
Ltac script_unfold :=
  unfold Entrypoint.main, Entrypoint.main_dotenv, Entrypoint.start_block,
    Entrypoint.launch, Entrypoint.exec, Entrypoint.sys_try, Entrypoint.sys,
    Entrypoint.say, Entrypoint.stry, Entrypoint.sbind, Entrypoint.sret,
    Entrypoint.sthrow, Entrypoint.boot;
  cbn [Entrypoint.os_state Entrypoint.events Entrypoint.output app].

Ltac script_step :=
  match goal with
  | |- context [Entrypoint.existsSync ?os ?p ?v] =>
      let b := fresh "b" in let v' := fresh "v" in let E := fresh "E" in
      destruct (Entrypoint.existsSync os p v) as [b v'] eqn:E; destruct b
  | |- context [Entrypoint.unlinkSync ?os ?p ?v] =>
      let r := fresh "r" in let v' := fresh "v" in let E := fresh "E" in
      destruct (Entrypoint.unlinkSync os p v) as [[[]|?] v'] eqn:E
  | |- context [Entrypoint.symlinkSync ?os ?t ?p ?v] =>
      let v' := fresh "v" in let E := fresh "E" in
      destruct (Entrypoint.symlinkSync os t p v) as [[[]|?] v'] eqn:E
  | |- context [Entrypoint.writeFileSync ?os ?p ?c ?v] =>
      let v' := fresh "v" in let E := fresh "E" in
      destruct (Entrypoint.writeFileSync os p c v) as [[[]|?] v'] eqn:E
  | |- context [Entrypoint.spawn ?os ?c ?e ?v] =>
      let v' := fresh "v" in let E := fresh "E" in let code := fresh "code" in
      destruct (Entrypoint.spawn os c e v) as [[code|] v'] eqn:E;
      [destruct (decide (code = Some 0)) as [->|?];
       [rewrite bool_decide_eq_true_2 by done
       |rewrite bool_decide_eq_false_2 by done] |]
  end;
  cbn [Entrypoint.os_state Entrypoint.events Entrypoint.output app negb andb fst snd];
  try rewrite (bool_decide_eq_true_2 (is_Some (Some _))) by eauto;
  try rewrite (bool_decide_eq_false_2 (is_Some None)) by (by intros [? ?]);
  cbn [Entrypoint.os_state Entrypoint.events Entrypoint.output app negb andb fst snd].

(** Tries every answer the operating system can give along a run. *)
Ltac script_cases :=
  script_unfold;
  try case_bool_decide;
  destruct (truthy (_ !! "BUCKET_NAME")) eqn:?;
  cbn [Entrypoint.os_state Entrypoint.events Entrypoint.output app negb andb fst snd];
  repeat script_step.

(** Decides which event of a concrete log a lookup refers to. *)
Ltac which_event H :=
  repeat (let i := fresh "i" in
          match type of H with
          | (_ :: _) !! ?j = Some _ => destruct j as [|i]; cbn in H
          | [] !! _ = Some _ => discriminate H
          end).

Section entrypoint_facts.
Import Entrypoint.
Context {V : Type} (os : OS V) (stringify : string → string).

Lemma start_block_volume_missing env penv (s : Proc V) v' :
  existsSync os "/data" (os_state s) = (false, v') →
  (start_block os env penv s).1 = Raised (Error "/data volume missing")
  ∧ events (start_block os env penv s).2 = events s ++ [EvExists "/data" false].
Proof. intros H. script_unfold. by rewrite H. Qed.

(** When the script is started with [npm run start] and the volume [/data]
    does not exist, it throws "/data volume missing" right after that check:
    no file is touched and no process is spawned. *)
Theorem volume_missing_stops :
  ∀ argv penv (v v' : V),
    join_space (slice_last3 argv) = "npm run start" →
    existsSync os "/data" v = (false, v') →
    (main os stringify argv penv (boot v)).1 = Raised (Error "/data volume missing")
    ∧ events (main os stringify argv penv (boot v)).2 = [EvExists "/data" false].
Proof.
  intros argv penv v v' Hstart Hdata. script_unfold.
  rewrite bool_decide_eq_true_2 by done.
  cbn [os_state events output app]. by rewrite Hdata.
Qed.

(** Closing steps for facts about a concrete event log. *)
Ltac in_log :=
  cbn [take]; repeat first [apply list_elem_of_here | apply list_elem_of_further].

Ltac from_log H :=
  repeat match type of H with
         | _ ∈ _ :: _ => apply elem_of_cons in H as [->|H]
         | _ ∈ [] => by apply elem_of_nil in H
         end.

Ltac not_this_command :=
  match goal with
  | Hc : _ = restore_command |- _ => cbv in Hc; discriminate Hc
  | Hc : restore_command = _ |- _ => cbv in Hc; discriminate Hc
  | Hc : ?c ≠ ?c |- _ => by destruct Hc
  end.

Ltac fact_failed_child :=
  let Hev := fresh "Hev" in let Hcode := fresh "Hcode" in let Hcmd := fresh "Hcmd" in
  intros ? ? ? ? Hev Hcode Hcmd; which_event Hev; try discriminate Hev;
  injection Hev as <- <- <-;
  first [ by destruct Hcode | by destruct Hcmd | by split ].

Ltac fact_restore :=
  let Hb := fresh "Hb" in let Hev := fresh "Hev" in let Hx := fresh "Hx" in
  intros Hb ? ? ? Hev;
  first [ by destruct Hb
        | which_event Hev; try discriminate Hev; simplify_eq; try not_this_command;
          (split; [eexists; split; reflexivity
                  | intros ? Hx; first [discriminate Hx | eexists; reflexivity]]) ].

Ltac fact_write :=
  let Hev := fresh "Hev" in
  intros ? ? ? Hev; which_event Hev; try discriminate Hev;
  eexists; split; reflexivity.

Ltac fact_fs_error :=
  let Hev := fresh "Hev" in let Herr := fresh "Herr" in
  intros ? ? ? Hev Herr; which_event Hev; injection Hev as <-;
  cbn in Herr; try discriminate Herr; injection Herr as <-; by split.

Ltac fact_done :=
  let Hx := fresh "Hx" in
  split; intros Hx;
  [ first [discriminate Hx | reflexivity]
  | cbn in Hx; first [reflexivity | discriminate Hx | (simplify_eq; congruence)] ].

Ltac fact_pending :=
  let Hx := fresh "Hx" in
  split;
  [ intros Hx; first [discriminate Hx | do 2 eexists; reflexivity]
  | intros (? & ? & Hx); cbn in Hx; first [reflexivity | discriminate Hx] ].

Ltac fact_no_litestream :=
  let Hb := fresh "Hb" in let Hin := fresh "Hin" in
  intros Hb;
  first [ discriminate Hb
        | intros ? Hin; cbn in Hin; from_log Hin; auto ].

Ltac fact_after_migration :=
  let Hs := fresh "Hs" in let Hev := fresh "Hev" in
  let Hm := fresh "Hm" in let Hr := fresh "Hr" in
  intros Hs ? ? ? ? Hev Hm Hr;
  first [ done
        | which_event Hev; try discriminate Hev; injection Hev as <- <- <-;
          first [ by destruct Hm | by destruct Hr | split; in_log ] ].

(** Everything the later theorems need about a run of
    [docker-entrypoint.js], established for every answer of the operating
    system at once. *)
Lemma main_facts argv penv (v : V) :
  let r := main os stringify argv penv (boot v) in
  (∀ i command env code,
     events r.2 !! i = Some (EvSpawn command env (Exited code)) →
     code ≠ Some 0 → command ≠ restore_command →
     length (events r.2) = S i
     ∧ r.1 = Raised (Error (command +:+ " failed rc=" +:+ show_code code)))
  ∧ (is_Some (truthy (penv !! "BUCKET_NAME")) →
     ∀ i env exit,
       events r.2 !! i = Some (EvSpawn restore_command env exit) →
       (∃ j, i = S j ∧ events r.2 !! j = Some (EvExists target false))
       ∧ (∀ code, exit = Exited code →
          ∃ b, events r.2 !! S i = Some (EvExists target b)))
  ∧ (∀ i content res,
       events r.2 !! i = Some (EvWriteFile target content res) →
       ∃ j, i = S j ∧ events r.2 !! j = Some (EvExists target false))
  ∧ (∀ i ev e,
       events r.2 !! i = Some ev → fs_error ev = Some e →
       length (events r.2) = S i ∧ r.1 = Raised e)
  ∧ (r.1 = Done ()
     ↔ last (events r.2)
       = Some (EvSpawn (final_command stringify argv penv) penv (Exited (Some 0))))
  ∧ (r.1 = Pending ↔ ∃ command env, last (events r.2) = Some (EvSpawn command env Running))
  ∧ (truthy (penv !! "BUCKET_NAME") = None →
     ∀ command, command ∈ spawned (events r.2) →
       command = migrate_command ∨ command = server_command argv)
  ∧ (join_space (slice_last3 argv) = "npm run start" →
     ∀ i command env exit,
       events r.2 !! i = Some (EvSpawn command env exit) →
       command ≠ migrate_command → command ≠ restore_command →
       EvSpawn migrate_command penv (Exited (Some 0)) ∈ take i (events r.2)
       ∧ EvSymlink target source (Normal ()) ∈ take i (events r.2)).
Proof.
  intros r. subst r.
  destruct (main os stringify argv penv (boot v)) as [r s'] eqn:Hrun.
  cbn [fst snd]. revert Hrun. unfold final_command. script_cases.
  all: intros [= <- <-]; cbn [events].
  all: split; [fact_failed_child
             |split; [fact_restore
             |split; [fact_write
             |split; [fact_fs_error
             |split; [fact_done
             |split; [fact_pending
             |split; [fact_no_litestream | fact_after_migration]]]]]]].
Qed.


(** A child that exits with a code other than 0 stops the script, unless it
    is the litestream restore: its spawn is the last event of the run and the
    script throws "<command> failed rc=<code>". *)
Theorem failed_child_is_fatal :
  ∀ argv penv (v : V) i command env code,
    events (main os stringify argv penv (boot v)).2 !! i
      = Some (EvSpawn command env (Exited code)) →
    code ≠ Some 0 → command ≠ restore_command →
    length (events (main os stringify argv penv (boot v)).2) = S i
    ∧ (main os stringify argv penv (boot v)).1
      = Raised (Error (command +:+ " failed rc=" +:+ show_code code)).
Proof. intros argv penv v. apply (main_facts argv penv v). Qed.

(** With [BUCKET_NAME] set, the litestream restore is spawned only right
    after a check that found the database file missing, and however it exits
    the script goes on: the next event is the second check for the database
    file. *)
Theorem restore_is_best_effort :
  ∀ argv penv (v : V) i env exit,
    is_Some (truthy (penv !! "BUCKET_NAME")) →
    events (main os stringify argv penv (boot v)).2 !! i
      = Some (EvSpawn restore_command env exit) →
    (∃ j, i = S j
          ∧ events (main os stringify argv penv (boot v)).2 !! j
            = Some (EvExists target false))
    ∧ (∀ code, exit = Exited code →
       ∃ b, events (main os stringify argv penv (boot v)).2 !! S i
            = Some (EvExists target b)).
Proof.
  intros argv penv v i env exit Hb.
  by apply (proj1 (proj2 (main_facts argv penv v)) Hb).
Qed.

(** The database file is written only right after a check that found it
    missing: an existing database is never overwritten. *)
Theorem database_written_only_when_missing :
  ∀ argv penv (v : V) i content res,
    events (main os stringify argv penv (boot v)).2 !! i
      = Some (EvWriteFile target content res) →
    ∃ j, i = S j
         ∧ events (main os stringify argv penv (boot v)).2 !! j
           = Some (EvExists target false).
Proof. intros argv penv v. apply (main_facts argv penv v). Qed.

(** An exception of [unlinkSync], [symlinkSync] or [writeFileSync] stops the
    script: the failed call is the last event and the script throws that
    same error. *)
Theorem fs_failure_is_fatal :
  ∀ argv penv (v : V) i ev e,
    events (main os stringify argv penv (boot v)).2 !! i = Some ev →
    fs_error ev = Some e →
    length (events (main os stringify argv penv (boot v)).2) = S i
    ∧ (main os stringify argv penv (boot v)).1 = Raised e.
Proof. intros argv penv v. apply (main_facts argv penv v). Qed.

(** The script completes exactly when its last event is the final command
    exiting with code 0, and it stays pending exactly when its last event is
    a child that never exits. *)
Theorem done_iff_final_command_succeeds :
  ∀ argv penv (v : V),
    ((main os stringify argv penv (boot v)).1 = Done ()
     ↔ last (events (main os stringify argv penv (boot v)).2)
       = Some (EvSpawn (final_command stringify argv penv) penv (Exited (Some 0))))
    ∧ ((main os stringify argv penv (boot v)).1 = Pending
       ↔ ∃ command env,
           last (events (main os stringify argv penv (boot v)).2)
           = Some (EvSpawn command env Running)).
Proof.
  intros argv penv v. split; apply (main_facts argv penv v).
Qed.

(** Without [BUCKET_NAME] (unset or empty) litestream is never invoked by
    the script itself: every command it spawns is the migration or the
    server command taken from the command line. *)
Theorem no_litestream_without_bucket :
  ∀ argv penv (v : V) command,
    truthy (penv !! "BUCKET_NAME") = None →
    command ∈ spawned (events (main os stringify argv penv (boot v)).2) →
    command = migrate_command ∨ command = server_command argv.
Proof.
  intros argv penv v command Hb. by apply (main_facts argv penv v).
Qed.

(** Started with [... npm run start], the script spawns a command other than
    the restore and the migration only after the symlink to the database has
    been created and the migration has exited with code 0. *)
Theorem server_only_after_migration :
  ∀ argv penv (v : V) i command env exit,
    join_space (slice_last3 argv) = "npm run start" →
    events (main os stringify argv penv (boot v)).2 !! i
      = Some (EvSpawn command env exit) →
    command ≠ migrate_command → command ≠ restore_command →
    EvSpawn migrate_command penv (Exited (Some 0))
      ∈ take i (events (main os stringify argv penv (boot v)).2)
    ∧ EvSymlink target source (Normal ())
      ∈ take i (events (main os stringify argv penv (boot v)).2).
Proof.
  intros argv penv v i command env exit Hs.
  by apply (main_facts argv penv v).
Qed.
End entrypoint_facts.

Section entrypoint_witnesses.
Import Entrypoint.

Lemma volume_missing_stops_witness :
  (main box_os demo_stringify start_argv ∅ (boot bare_box)).1
    = Raised (Error "/data volume missing")
  ∧ events (main box_os demo_stringify start_argv ∅ (boot bare_box)).2
    = [EvExists "/data" false].
Proof.
  apply (volume_missing_stops box_os demo_stringify start_argv ∅ bare_box bare_box);
    reflexivity.
Defined.


Lemma failed_child_is_fatal_witness :
  length (events (main box_os demo_stringify start_argv ∅ (boot unmigratable_box)).2) = 7
  ∧ (main box_os demo_stringify start_argv ∅ (boot unmigratable_box)).1
    = Raised (Error (migrate_command +:+ " failed rc=" +:+ show_code (Some 1))).
Proof.
  apply (failed_child_is_fatal box_os demo_stringify start_argv ∅ unmigratable_box
           6 migrate_command ∅ (Some 1)).
  - vm_compute. reflexivity.
  - discriminate.
  - intros Hx. vm_compute in Hx. discriminate Hx.
Defined.

Lemma restore_is_best_effort_witness :
  (∃ j, 4 = S j
        ∧ events (main box_os demo_stringify start_argv bucket_penv
                    (boot unrestorable_box)).2 !! j
          = Some (EvExists target false))
  ∧ (∀ code, Exited (Some 1) = Exited code →
     ∃ b, events (main box_os demo_stringify start_argv bucket_penv
                    (boot unrestorable_box)).2 !! 5
          = Some (EvExists target b)).
Proof.
  apply (restore_is_best_effort box_os demo_stringify start_argv bucket_penv
           unrestorable_box 4 bucket_penv (Exited (Some 1))).
  - vm_compute. eexists. reflexivity.
  - vm_compute. reflexivity.
Defined.

Lemma database_written_only_when_missing_witness :
  ∃ j, 5 = S j
       ∧ events (main box_os demo_stringify start_argv ∅ (boot fresh_box)).2 !! j
         = Some (EvExists target false).
Proof.
  apply (database_written_only_when_missing box_os demo_stringify start_argv ∅
           fresh_box 5 "" (Normal ())).
  vm_compute. reflexivity.
Defined.

Lemma fs_failure_is_fatal_witness :
  length (events (main box_os demo_stringify start_argv ∅ (boot readonly_box)).2) = 3
  ∧ (main box_os demo_stringify start_argv ∅ (boot readonly_box)).1
    = Raised (Error ("EROFS: read-only file system, " +:+ source)).
Proof.
  apply (fs_failure_is_fatal box_os demo_stringify start_argv ∅ readonly_box 2
           (EvSymlink target source
              (Thrown (Error ("EROFS: read-only file system, " +:+ source))))).
  - vm_compute. reflexivity.
  - reflexivity.
Defined.

Lemma no_litestream_without_bucket_witness :
  migrate_command = migrate_command ∨ migrate_command = server_command start_argv.
Proof.
  apply (no_litestream_without_bucket box_os demo_stringify start_argv ∅ fresh_box
           migrate_command).
  - reflexivity.
  - vm_compute. apply list_elem_of_here.
Defined.

Lemma server_only_after_migration_witness :
  EvSpawn migrate_command ∅ (Exited (Some 0))
    ∈ take 7 (events (main box_os demo_stringify start_argv ∅ (boot fresh_box)).2)
  ∧ EvSymlink target source (Normal ())
    ∈ take 7 (events (main box_os demo_stringify start_argv ∅ (boot fresh_box)).2).
Proof.
  apply (server_only_after_migration box_os demo_stringify start_argv ∅ fresh_box 7
           "npm run start" ∅ (Exited (Some 0))).
  - reflexivity.
  - vm_compute. reflexivity.
  - intros Hx. vm_compute in Hx. discriminate Hx.
  - intros Hx. vm_compute in Hx. discriminate Hx.
Defined.
End entrypoint_witnesses.

Section dotenv_facts.
Import Entrypoint.
Context {V : Type} (os : OS V) (stringify trim : string → string).

Lemma dotenv_facts argv penv (v : V) :
  let r := main_dotenv os stringify trim argv penv (boot v) in
  (∃ res,
     head (events r.2) = Some (EvWriteFile "/app/.env" (trim (envContent penv)) res)
     ∧ ∀ e, res = Thrown e →
         events r.2 = [EvWriteFile "/app/.env" (trim (envContent penv)) res]
         ∧ r.1 = Raised e)
  ∧ (∀ i command env exit,
       events r.2 !! i = Some (EvSpawn command env exit) →
       S i < length (events r.2) → env = child_env penv)
  ∧ (r.1 = Done () →
     last (events r.2)
     = Some (EvSpawn (final_command stringify argv penv)
               (with_database_url (child_env penv)) (Exited (Some 0)))).
Proof.
  intros r. subst r.
  destruct (main_dotenv os stringify trim argv penv (boot v)) as [r s'] eqn:Hrun.
  cbn [fst snd]. revert Hrun. unfold final_command. script_cases.
  all: intros [= <- <-]; cbn [events].
  all: split; [|split].
  all: try (eexists; split; [reflexivity|];
            let He := fresh "He" in
            intros ? He; first [discriminate He | injection He as <-; by split]).
  all: try (let Hev := fresh "Hev" in let Hlt := fresh "Hlt" in
            intros ? ? ? ? Hev Hlt; which_event Hev; try discriminate Hev;
            injection Hev as <- <- <-;
            first [reflexivity | cbn in Hlt; lia]).
  all: let Hx := fresh "Hx" in intros Hx; first [discriminate Hx | reflexivity].
Qed.

(** The variant that writes [/app/.env] does so before anything else; when
    that write throws, the script throws the same error and nothing else has
    happened. *)
Theorem dotenv_written_first :
  ∀ argv penv (v : V),
    ∃ res,
      head (events (main_dotenv os stringify trim argv penv (boot v)).2)
        = Some (EvWriteFile "/app/.env" (trim (envContent penv)) res)
      ∧ ∀ e, res = Thrown e →
          events (main_dotenv os stringify trim argv penv (boot v)).2
            = [EvWriteFile "/app/.env" (trim (envContent penv)) res]
          ∧ (main_dotenv os stringify trim argv penv (boot v)).1 = Raised e.
Proof. intros argv penv v. apply (dotenv_facts argv penv v). Qed.

(** In that variant the default for [DATABASE_URL] is put into [env] only
    after the start block: every child that is followed by another event
    (the restore, the migration) is given [DATABASE_URL] exactly as the
    process environment has it, while a run that completes has given its
    final command a non-empty [DATABASE_URL], ["file:/data/dev.sqlite"] when
    the process environment has none. *)
Theorem database_url_default_only_for_final_command :
  ∀ argv penv (v : V),
    (∀ i command env exit,
       events (main_dotenv os stringify trim argv penv (boot v)).2 !! i
         = Some (EvSpawn command env exit) →
       S i < length (events (main_dotenv os stringify trim argv penv (boot v)).2) →
       env !! "DATABASE_URL" = penv !! "DATABASE_URL")
    ∧ ((main_dotenv os stringify trim argv penv (boot v)).1 = Done () →
       ∃ env url,
         last (events (main_dotenv os stringify trim argv penv (boot v)).2)
           = Some (EvSpawn (final_command stringify argv penv) env (Exited (Some 0)))
         ∧ env !! "DATABASE_URL" = Some url ∧ url ≠ ""
         ∧ (truthy (penv !! "DATABASE_URL") = None → url = "file:/data/dev.sqlite")).
Proof.
  intros argv penv v.
  destruct (dotenv_facts argv penv v) as (_ & Hearly & Hdone). split.
  - intros i command env exit Hev Hlt. rewrite (Hearly i command env exit Hev Hlt).
    unfold child_env. by rewrite !lookup_insert_ne.
  - intros Hd. specialize (Hdone Hd).
    assert (child_env penv !! "DATABASE_URL" = penv !! "DATABASE_URL") as Hsame.
    { unfold child_env. by rewrite !lookup_insert_ne. }
    exists (with_database_url (child_env penv)).
    destruct (truthy (penv !! "DATABASE_URL")) as [url|] eqn:Hurl.
    + exists url. split; [exact Hdone|].
      assert (with_database_url (child_env penv) = child_env penv) as ->.
      { unfold with_database_url. by rewrite Hsame, Hurl. }
      rewrite Hsame. unfold truthy in Hurl.
      destruct (penv !! "DATABASE_URL") as [u|]; [|done].
      case_bool_decide; by simplify_eq.
    + exists "file:/data/dev.sqlite". split; [exact Hdone|].
      assert (with_database_url (child_env penv)
              = <["DATABASE_URL" := "file:/data/dev.sqlite"]> (child_env penv)) as ->.
      { unfold with_database_url. by rewrite Hsame, Hurl. }
      by rewrite lookup_insert_eq.
Qed.
End dotenv_facts.


Section dotenv_witnesses.
Import Entrypoint.

Lemma dotenv_written_first_witness :
  ∃ res,
    head (events (main_dotenv box_os demo_stringify demo_trim start_argv ∅
                    (boot sealed_box)).2)
      = Some (EvWriteFile "/app/.env" (demo_trim (envContent ∅)) res)
    ∧ ∀ e, res = Thrown e →
        events (main_dotenv box_os demo_stringify demo_trim start_argv ∅
                  (boot sealed_box)).2
          = [EvWriteFile "/app/.env" (demo_trim (envContent ∅)) res]
        ∧ (main_dotenv box_os demo_stringify demo_trim start_argv ∅
             (boot sealed_box)).1 = Raised e.
Proof.
  apply (dotenv_written_first box_os demo_stringify demo_trim start_argv ∅ sealed_box).
Defined.

Lemma database_url_default_only_for_final_command_witness :
  child_env ∅ !! "DATABASE_URL" = (∅ : gmap string string) !! "DATABASE_URL"
  ∧ ∃ env url,
      last (events (main_dotenv box_os demo_stringify demo_trim start_argv ∅
                      (boot fresh_box)).2)
        = Some (EvSpawn (final_command demo_stringify start_argv ∅) env
                  (Exited (Some 0)))
      ∧ env !! "DATABASE_URL" = Some url ∧ url ≠ ""
      ∧ (truthy ((∅ : gmap string string) !! "DATABASE_URL") = None →
         url = "file:/data/dev.sqlite").
Proof.
  split.
  - apply (proj1 (database_url_default_only_for_final_command box_os demo_stringify
                    demo_trim start_argv ∅ fresh_box)
             7 migrate_command (child_env ∅) (Exited (Some 0))).
    + vm_compute. reflexivity.
    + vm_compute. lia.
  - apply (proj2 (database_url_default_only_for_final_command box_os demo_stringify
                    demo_trim start_argv ∅ fresh_box)).
    vm_compute. reflexivity.
Defined.

End dotenv_witnesses.


(** * The loader and the toast effect *)

(** When the answer to the collections query has no [edges] (no [data], no
    [collections], or [edges] missing), the loader does not fail: it returns
    an empty table with the error "Collections data is missing or
    malformed.", page info without neighbours, 30 per page and the page
    number of the request.  An exception of [authenticate.admin] or of the
    query, on the other hand, is not caught: the loader throws it. *)
Theorem loader_without_edges :
  ∀ W Num (parseInt : string → Num) (env : Loader.LoaderEnv) url params (w : W),
    (∀ auth w1 data w2,
       Loader.l_authenticate env w = (Normal auth, w1) →
       Loader.l_graphql auth
         {| Loader.q_first := 30;
            Loader.q_after := truthy (Loader.get params "after");
            Loader.q_filter := "sortOrder:MANUAL" |} w1 = (Normal data, w2) →
       data ≫= Loader.c_edges = None →
       ∃ d, (Loader.loader parseInt env url params (init w)).1 = Normal d
            ∧ Loader.d_collections d = []
            ∧ Loader.d_error d = Some "Collections data is missing or malformed."
            ∧ Loader.d_pageInfo d
              = Some {| Loader.hasNextPage := false; Loader.hasPreviousPage := false;
                        Loader.endCursor := None; Loader.startCursor := None |}
            ∧ Loader.d_perPage d = 30
            ∧ Loader.d_currentPage d
              = parseInt (default "1" (truthy (Loader.get params "page"))))
    ∧ (∀ e w1, Loader.l_authenticate env w = (Thrown e, w1) →
       (Loader.loader parseInt env url params (init w)).1 = Thrown e)
    ∧ (∀ auth w1 e w2,
       Loader.l_authenticate env w = (Normal auth, w1) →
       Loader.l_graphql auth
         {| Loader.q_first := 30;
            Loader.q_after := truthy (Loader.get params "after");
            Loader.q_filter := "sortOrder:MANUAL" |} w1 = (Thrown e, w2) →
       (Loader.loader parseInt env url params (init w)).1 = Thrown e).
Proof.
  intros W Num parseInt env url params w. split; [|split].
  - intros auth w1 data w2 Hauth Hq Hnone.
    unfold Loader.loader, Loader.lift, bind, console_put, ret, init. cbn.
    rewrite Hauth. cbn. rewrite Hq. cbn. rewrite Hnone. by eexists.
  - intros e w1 Hauth.
    unfold Loader.loader, Loader.lift, bind, console_put, ret, init. cbn.
    by rewrite Hauth.
  - intros auth w1 e w2 Hauth Hq.
    unfold Loader.loader, Loader.lift, bind, console_put, ret, init. cbn.
    rewrite Hauth. cbn. by rewrite Hq.
Qed.

Lemma loader_without_edges_witness :
  ∃ d, (Loader.loader demo_parseInt (demo_loader_env None) "https://app.example/app"
          [("page", "2")] (init ())).1 = Normal d
       ∧ Loader.d_collections d = []
       ∧ Loader.d_error d = Some "Collections data is missing or malformed."
       ∧ Loader.d_pageInfo d
         = Some {| Loader.hasNextPage := false; Loader.hasPreviousPage := false;
                   Loader.endCursor := None; Loader.startCursor := None |}
       ∧ Loader.d_perPage d = 30
       ∧ Loader.d_currentPage d
         = demo_parseInt (default "1" (truthy (Loader.get [("page", "2")] "page"))).
Proof.
  eapply (proj1 (loader_without_edges unit nat demo_parseInt (demo_loader_env None)
                   "https://app.example/app" [("page", "2")] ())); reflexivity.
Defined.

(** When the answer has [edges], the table has one row per edge, in the same
    order (an empty list gives an empty table, not the error): each row
    copies the identifier, title, handle, sort order and cursor of its edge,
    its product count is 0 when [productsCount] is missing, and its
    rendered-at time is null when the metafield is missing or empty. *)
Theorem loader_rows_follow_edges :
  ∀ W Num (parseInt : string → Num) (env : Loader.LoaderEnv) url params (w : W)
    auth w1 connection w2 edges,
    Loader.l_authenticate env w = (Normal auth, w1) →
    Loader.l_graphql auth
      {| Loader.q_first := 30;
         Loader.q_after := truthy (Loader.get params "after");
         Loader.q_filter := "sortOrder:MANUAL" |} w1 = (Normal (Some connection), w2) →
    Loader.c_edges connection = Some edges →
    ∃ d, (Loader.loader parseInt env url params (init w)).1 = Normal d
         ∧ Loader.d_error d = None
         ∧ Loader.d_pageInfo d = Loader.c_pageInfo connection
         ∧ length (Loader.d_collections d) = length edges
         ∧ ∀ i edge, edges !! i = Some edge →
             Loader.d_collections d !! i
             = Some {| Loader.r_id := Loader.n_id (Loader.e_node edge);
                       Loader.r_title := Loader.n_title (Loader.e_node edge);
                       Loader.r_handle := Loader.n_handle (Loader.e_node edge);
                       Loader.r_sortOrder := Loader.n_sortOrder (Loader.e_node edge);
                       Loader.r_totalProducts :=
                         match Loader.n_count (Loader.e_node edge) with
                         | Some n => n
                         | None => 0
                         end;
                       Loader.r_renderedAt :=
                         match Loader.n_rendered_at (Loader.e_node edge) with
                         | Some t => if bool_decide (t = "") then None else Some t
                         | None => None
                         end;
                       Loader.r_cursor := Loader.e_cursor edge |}.
Proof.
  intros W Num parseInt env url params w auth w1 connection w2 edges Hauth Hq Hedges.
  unfold Loader.loader, Loader.lift, bind, console_put, ret, init. cbn.
  rewrite Hauth. cbn. rewrite Hq. cbn. rewrite Hedges. eexists.
  split; [reflexivity|]. cbn. split; [done|]. split; [done|].
  split; [by rewrite length_fmap|].
  intros i edge Hi. rewrite list_lookup_fmap, Hi. reflexivity.
Qed.

Lemma loader_rows_follow_edges_witness :
  ∃ d, (Loader.loader demo_parseInt (demo_loader_env (Some demo_connection))
          "https://app.example/app" [] (init ())).1 = Normal d
       ∧ length (Loader.d_collections d) = 2
       ∧ Loader.r_totalProducts <$> Loader.d_collections d = [3; 0]
       ∧ Loader.r_renderedAt <$> Loader.d_collections d
         = [Some "2024-05-01T10:00:00.000Z"; None].
Proof.
  destruct (loader_rows_follow_edges unit nat demo_parseInt
              (demo_loader_env (Some demo_connection)) "https://app.example/app" []
              () {| Loader.l_graphql := λ _ w, (Normal (Some demo_connection), w);
                    Loader.l_shop := Some "demo.myshopify.com" |}
              () demo_connection () demo_edges eq_refl eq_refl eq_refl)
    as (d & Hd & _ & _ & Hlen & _).
  exists d. split; [exact Hd|]. split; [exact Hlen|].
  vm_compute in Hd. injection Hd as <-. split; reflexivity.
Defined.

(** The toast effect is idempotent: once it has run for a response, running
    it again for the same response changes nothing, so a message is shown
    (or the page reloaded) once, and a response whose message equals the
    last one shown gives no new toast. *)
Theorem toast_effect_idempotent :
  ∀ data st ui,
    Toasts.effect data st (Toasts.effect data st ui) = Toasts.effect data st ui.
Proof.
  intros [[error|[] results message]|] st ui; try done;
    destruct st; cbn; try done;
    repeat (case_bool_decide; cbn; try done); congruence.
Qed.

(** An expired session ends in a page reload: when [authenticate.admin]
    throws an error with status 401, the response of the session handler,
    once the fetcher is idle, makes the effect reload the page and remember
    the message, without showing a toast. *)
Theorem expired_session_reloads_page :
  ∀ W (env : Env W) request (w : W) e w1 ui,
    authenticate_admin env request w = (Thrown e, w1) →
    err_status e = Some 401 →
    Toasts.lastToastId ui ≠ Some "Session expired. Please refresh the page." →
    ∃ response,
      (Session.action env request (init w)).1 = Normal response
      ∧ Toasts.effect (Some (body response)) Toasts.idle ui
        = {| Toasts.toastMessage := Toasts.toastMessage ui;
             Toasts.lastToastId := Some "Session expired. Please refresh the page.";
             Toasts.reloads := S (Toasts.reloads ui) |}.
Proof.
  intros W env request w e w1 ui Hauth Hst Hlast.
  destruct (proj1 (session_before_query W env request w) e w1 Hauth) as [Hresp _].
  eexists. split; [exact Hresp|].
  unfold Session.error_response. rewrite bool_decide_eq_true_2 by done.
  cbn [json body Toasts.effect].
  rewrite (bool_decide_eq_true_2 (Toasts.lastToastId ui ≠ _)) by done.
  reflexivity.
Qed.

Lemma expired_session_reloads_page_witness :
  ∃ response,
    (Session.action expired_env (render best_sellers) (init (demo_shop ∅ ∅))).1
      = Normal response
    ∧ Toasts.effect (Some (body response)) Toasts.idle
        {| Toasts.toastMessage := None; Toasts.lastToastId := None; Toasts.reloads := 0 |}
      = {| Toasts.toastMessage := None;
           Toasts.lastToastId := Some "Session expired. Please refresh the page.";
           Toasts.reloads := 1 |}.
Proof.
  apply (expired_session_reloads_page Shop expired_env (render best_sellers)
           (demo_shop ∅ ∅) {| err_status := Some 401; err_message := None |}
           (demo_shop ∅ ∅)
           {| Toasts.toastMessage := None; Toasts.lastToastId := None;
              Toasts.reloads := 0 |}); [reflexivity | reflexivity | discriminate].
Defined.
